(** * MENBAR job lifecycle manager: a shallow embedding of [server/app_core.py]

    The development follows the layout of the Python module:
    - Python values, exceptions and the collaborators the module calls
      (subprocesses, the file system, [uuid], [random], [requests], [json]);
    - section 2 of the module: the task registry [tasks_storage];
    - section 3: the processing functions;
    - section 4: the four task functions (the work-function adapter);
    - section 5: the endpoints that submit jobs and query their status.

    Conventions of the embedding:
    - effectful code lives in the monad [M], a state monad over [world]
      whose outcomes are a return value, a raised exception or the
      exhaustion of the fuel of a [while] loop;
    - Python [float]s are idealised as exact rationals ([Q]); non-finite
      floats ([nan], [inf]) and rounding are outside the model;
    - [history] is a ghost field of the world: the chronicle of all writes
      to the registry.  No function reads it. *)

From Stdlib Require Import QArith Qround Lqa Sorted.
From stdpp Require Import gmap strings list pretty.

Local Open Scope string_scope.
#[local] Set Warnings "-register-all,-notation-for-abbreviation".

(** * 1. Python values and exceptions *)

(** The exceptions the module can see.  [NonException] stands for the
    subclasses of [BaseException] that are not subclasses of [Exception]
    ([KeyboardInterrupt], [SystemExit], ...): [except Exception] lets them
    through, a bare [except:] catches them. *)
Inductive exn : Type :=
  | HTTPException (status_code : Z) (detail : string)
  | ValueError (msg : string)
  | TypeError (msg : string)
  | OtherException (msg : string)
  | NonException (msg : string).

Definition is_Exception (e : exn) : bool :=
  match e with
  | NonException _ => false
  | _ => true
  end.

(** [str(e)] *)
Definition str_exn (e : exn) : string :=
  match e with
  | HTTPException status_code detail => pretty status_code +:+ ": " +:+ detail
  | ValueError msg | TypeError msg | OtherException msg | NonException msg => msg
  end.

(** JSON-like Python objects: what [json.loads] and [response.json()] return
    and what the registry stores as [result]. *)
Inductive pyobj : Type :=
  | PNone
  | PBool (b : bool)
  | PInt (n : Z)
  | PFloat (x : Q)
  | PStr (s : string)
  | PList (l : list pyobj)
  | PDict (d : list (string * pyobj)).

(** A Python dict with string keys, in insertion order. *)
Notation dict := (list (string * pyobj)).

Fixpoint dict_get (k : string) (d : dict) : option pyobj :=
  match d with
  | [] => None
  | (k', v) :: d' => if String.eqb k k' then Some v else dict_get k d'
  end.

(** A Python number that is an [int] or a [float], as [current_time] in
    [generate_premiere_xml], which starts as the int [0]. *)
Inductive number : Type :=
  | Int (n : Z)
  | Float (x : Q).

Definition num_val (n : number) : Q :=
  match n with
  | Int n => inject_Z n
  | Float x => x
  end.

Definition nl : string := String (Ascii.ascii_of_nat 10) "".

(** [s.split('\n')]: a line feed is one byte in UTF-8 and is no part of any
    longer sequence, so the split is exact on the bytes. *)
Fixpoint split_lines_go (cur : string) (s : string) : list string :=
  match s with
  | EmptyString => [cur]
  | String c s' =>
      if Ascii.eqb c (Ascii.ascii_of_nat 10)
      then cur :: split_lines_go "" s'
      else split_lines_go (cur +:+ String c "") s'
  end.

Definition split_lines (s : string) : list string := split_lines_go "" s.

(** * The collaborators *)

(** Everything the module obtains from outside itself.  An exception raised
    by a collaborator is a value [inl e]. *)
Record externals : Type := Externals {
  (** [str(Path(__file__).resolve().parent)] *)
  BASE_DIR : string;
  (** the value of the n-th call of [uuid.uuid4().hex] *)
  uuid_source : nat → string;
  (** [subprocess.run(cmd, ..., check=True).stdout] *)
  subprocess_run : list string → exn + string;
  (** [float(s)], finite results only *)
  float_of_str : string → exn + Q;
  (** [str(x)] of a float, as an f-string prints it *)
  str_of_float : Q → string;
  (** [s.strip()] *)
  str_strip : string → string;
  (** [os.path.abspath(p)] of a [str] *)
  os_path_abspath : string → string;
  (** [with open(path, "w", encoding="utf-8") as f: f.write(content)];
      [None] when it succeeds *)
  write_text : string → string → option exn;
  (** [with open(path, "rb") as f: f.read()] *)
  read_bytes : string → exn + string;
  (** [requests.post(url, headers={}, data=data).json()] *)
  requests_post_json : string → string → exn + pyobj;
  (** [requests.utils.quote(s)] *)
  requests_utils_quote : string → exn + string;
  (** [json.loads(s)] *)
  json_loads : string → exn + pyobj;
  (** [list(s)]: the characters of a [str] *)
  str_chars : string → list string;
  (** the n-th draw of the generator of [random]: 53 random bits *)
  random_source : nat → Z
}.

(** * The state of the process *)

Record world : Type := World {
  (** the module-level dict [tasks_storage] *)
  tasks_storage : gmap string dict;
  (** how many times [uuid.uuid4()] has been called *)
  uuid_calls : nat;
  (** how many draws the [random] generator has made *)
  random_calls : nat;
  (** the text files written by the module *)
  files : gmap string string;
  (** ghost: every write to [tasks_storage], newest first *)
  history : list (string * dict)
}.

Definition initial_world : world := World ∅ 0 0 ∅ [].

(** * The monad of effectful code *)

Inductive outcome (A : Type) : Type :=
  | Returns (a : A)
  | Raises (e : exn)
  | OutOfFuel.
Arguments Returns {A} a.
Arguments Raises {A} e.
Arguments OutOfFuel {A}.

Definition M (A : Type) : Type := world → outcome A * world.

#[global] Instance M_ret : MRet M := λ A a w, (Returns a, w).

#[global] Instance M_bind : MBind M := λ A B f m w,
  match m w with
  | (Returns a, w') => f a w'
  | (Raises e, w') => (Raises e, w')
  | (OutOfFuel, w') => (OutOfFuel, w')
  end.

Definition raise {A} (e : exn) : M A := λ w, (Raises e, w).

Definition out_of_fuel {A} : M A := λ w, (OutOfFuel, w).

(** Calling a collaborator. *)
Definition call {A} (r : exn + A) : M A :=
  match r with
  | inl e => raise e
  | inr a => mret a
  end.

(** [try: body  except Exception as e: handler e] *)
Definition try_except {A} (body : M A) (handler : exn → M A) : M A := λ w,
  match body w with
  | (Raises e, w') =>
      if is_Exception e then handler e w' else (Raises e, w')
  | r => r
  end.

(** [try: body  except: handler] *)
Definition try_except_all {A} (body : M A) (handler : M A) : M A := λ w,
  match body w with
  | (Raises e, w') => handler w'
  | r => r
  end.

(** [for x in xs: acc = step acc x] *)
Fixpoint for_each {A B} (step : B → A → M B) (xs : list A) (acc : B) : M B :=
  match xs with
  | [] => mret acc
  | x :: xs' => acc' ← step acc x; for_each step xs' acc'
  end.

(** The paths of section 1 of the module ([Path.__truediv__] on POSIX). *)
Definition path_join (dir name : string) : string := dir +:+ "/" +:+ name.

Section Program.
Context (E : externals).

Definition DATA_DIR : string := path_join (BASE_DIR E) "data".
Definition UPLOADS_DIR : string := path_join DATA_DIR "uploads".
Definition OUTPUTS_DIR : string := path_join DATA_DIR "outputs".

(** ** 2. Simple internal task manager *)

(** [uuid.uuid4().hex] *)
Definition uuid4_hex : M string := λ w,
  (Returns (uuid_source E (uuid_calls w)),
   World (tasks_storage w) (S (uuid_calls w)) (random_calls w) (files w)
         (history w)).

(** [tasks_storage[task_id] = record] *)
Definition store (task_id : string) (record : dict) : M unit := λ w,
  (Returns tt,
   World (<[task_id := record]> (tasks_storage w)) (uuid_calls w)
         (random_calls w) (files w) ((task_id, record) :: history w)).

(** The defaults of the source, [result=None] and [progress=0], are
    written out at each call. *)
Definition update_task_status
    (task_id status : string) (result : pyobj) (progress : Z) : M unit :=
  updated_at ← uuid4_hex;
  store task_id [("status", PStr status);
                 ("result", result);
                 ("progress", PInt progress);
                 ("updated_at", PStr updated_at)].

Definition NOT_FOUND_record : dict :=
  [("status", PStr "NOT_FOUND"); ("progress", PInt 0)].

Definition get_task_status (task_id : string) : M dict := λ w,
  (Returns (default NOT_FOUND_record (tasks_storage w !! task_id)), w).

(** ** 3. Core processing logic *)

Definition ensure_ffmpeg : M unit :=
  try_except
    (call (subprocess_run E ["ffmpeg"; "-version"]);; mret tt)
    (λ _, raise (HTTPException 500 "FFmpeg is not installed on the server.")).

Definition get_audio_duration (path : string) : M Q :=
  try_except_all
    (let cmd := ["ffprobe"; "-v"; "error"; "-show_entries"; "format=duration";
                 "-of"; "default=noprint_wrappers=1:nokey=1"; path] in
     stdout ← call (subprocess_run E cmd);
     call (float_of_str E (str_strip E stdout)))
    (mret 300%Q).

Definition mix_audio_aza (vocal_path slap_path output_path : string) : M unit :=
  ensure_ffmpeg;;
  let filter_complex :=
    "[0:a]highpass=f=150,acompressor=threshold=-16dB:ratio=4:attack=5:release=50[voc];" +:+
    "[1:a]lowpass=f=3000,alimiter=limit=0.8[slap];" +:+
    "[voc][slap]amix=inputs=2:weights=1 0.7:normalize=0[out]" in
  let cmd := ["ffmpeg"; "-y"; "-i"; vocal_path; "-i"; slap_path;
              "-filter_complex"; filter_complex; "-map"; "[out]"; output_path] in
  call (subprocess_run E cmd);; mret tt.

(** ["text" in result] on a decoded JSON value *)
Definition py_contains (k : string) (o : pyobj) : exn + bool :=
  match o with
  | PDict d => inr (bool_decide (is_Some (dict_get k d)))
  | PList l =>
      inr (existsb (λ x, match x with PStr s => String.eqb s k | _ => false end) l)
  | PStr s => inr (bool_decide (is_Some (String.index 0 k s)))
  | _ => inl (TypeError "argument is not iterable")
  end.

Definition generate_srt_via_ai (audio_path lyrics : string) : M string :=
  try_except
    (u ← uuid4_hex;
     let vocal_only_path := path_join UPLOADS_DIR ("vocal_iso_" +:+ u +:+ ".mp3") in
     ensure_ffmpeg;;
     let filter_str := "highpass=f=150,lowpass=f=3000,acompressor=threshold=-16dB:ratio=4" in
     let cmd := ["ffmpeg"; "-y"; "-i"; audio_path; "-af"; filter_str; vocal_only_path] in
     call (subprocess_run E cmd);;
     let url := "https://api-inference.huggingface.co/models/openai/whisper-large-v3" in
     data ← call (read_bytes E audio_path);
     result ← call (requests_post_json E url data);
     has_text ← call (py_contains "text" result);
     if negb has_text then
       mret ("1" +:+ nl +:+ "00:00:01,000 --> 00:00:10,000" +:+ nl +:+
             "[خطأ في الاتصال بالسحابة - يرجى المحاولة لاحقاً]" +:+ nl)
     else
       let user_lines :=
         map (str_strip E)
             (filter (λ l, str_strip E l ≠ "") (split_lines lyrics)) in
       mret ("1" +:+ nl +:+ "00:00:01,000 --> 00:00:10,000" +:+ nl +:+
             (match user_lines with l :: _ => l | [] => "..." end) +:+ nl))
    (λ e, mret ("ALIGMENT_ERROR: " +:+ str_exn e)).

(** *** The [random] module *)

(** One draw of the generator: an integer of 53 bits. *)
Definition random_draw : M Z := λ w,
  (Returns (random_source E (random_calls w) `mod` 2 ^ 53)%Z,
   World (tasks_storage w) (uuid_calls w) (S (random_calls w)) (files w)
         (history w)).

(** [random.random()]: a multiple of 2^-53 in [0, 1). *)
Definition random_random : M Q :=
  k ← random_draw; mret (inject_Z k / inject_Z (2 ^ 53))%Q.

(** [random.randint(a, b)]: [randrange(a, b + 1)], which raises
    [ValueError] on an empty range, before it draws. *)
Definition random_randint (a b : Z) : M Z :=
  if decide (b < a)%Z then raise (ValueError "empty range for randrange()")
  else k ← random_draw; mret (a + k `mod` (b - a + 1))%Z.

(** [random.uniform(a, b)] is [a + (b - a) * random()]. *)
Definition random_uniform (a b : Q) : M Q :=
  u ← random_random; mret (a + (b - a) * u)%Q.

(** *** Montage timeline *)

(** Iterating over a decoded JSON value, as [enumerate(video_paths)] does. *)
Definition py_iter (o : pyobj) : exn + list pyobj :=
  match o with
  | PList l => inr l
  | PDict d => inr (map (λ kv, PStr kv.1) d)
  | PStr s => inr (map PStr (str_chars E s))
  | _ => inl (TypeError "object is not iterable")
  end.

(** [len(video_paths)] *)
Definition py_len (o : pyobj) : exn + Z :=
  match o with
  | PList l => inr (Z.of_nat (length l))
  | PDict d => inr (Z.of_nat (length d))
  | PStr s => inr (Z.of_nat (length (str_chars E s)))
  | _ => inl (TypeError "object has no len()")
  end.

(** [os.path.abspath(v)] of an arbitrary object *)
Definition abspath_of (v : pyobj) : exn + string :=
  match v with
  | PStr s => inr (os_path_abspath E s)
  | _ => inl (TypeError "expected str, bytes or os.PathLike object")
  end.

(** One [<video>] element of the spine: a segment of the timeline. *)
Record clip : Type := Clip {
  cam_idx : Z;
  offset : number;
  duration : Q
}.

Definition str_of_number (n : number) : string :=
  match n with
  | Int n => pretty n
  | Float x => str_of_float E x
  end.

Definition dq : string := String (Ascii.ascii_of_nat 34) "".

(** [name="value"] *)
Definition attr (name value : string) : string :=
  name +:+ "=" +:+ dq +:+ value +:+ dq.

Definition render_clip (c : clip) : string :=
  "                        <video " +:+
  attr "name" ("Cam_" +:+ pretty (cam_idx c + 1)%Z) +:+ " " +:+
  attr "offset" (str_of_number (offset c) +:+ "s") +:+ " " +:+
  attr "ref" ("cam" +:+ pretty (cam_idx c)) +:+ " " +:+
  attr "duration" (str_of_float E (duration c) +:+ "s") +:+ " " +:+
  attr "start" "0s" +:+ " />" +:+ nl.

(** The [while current_time < total_duration] loop.  [clips] is the list of
    the segments appended to [clips_xml] so far; the loop has no structural
    bound, so it runs on [fuel]. *)
Fixpoint montage_loop (fuel : nat) (cut_duration cam_count : Z)
    (total_duration : Q) (current_time : number) (clips : list clip)
    : M (list clip) :=
  if Qlt_le_dec (num_val current_time) total_duration then
    match fuel with
    | O => out_of_fuel
    | S fuel' =>
        cam_idx ← random_randint 0 (cam_count - 1);
        duration ← random_uniform (inject_Z (cut_duration - 1))
                                  (inject_Z (cut_duration + 2));
        let duration :=
          if Qlt_le_dec total_duration (num_val current_time + duration)
          then (total_duration - num_val current_time)%Q
          else duration in
        montage_loop fuel' cut_duration cam_count total_duration
          (Float (num_val current_time + duration))
          (clips ++ [Clip cam_idx current_time duration])
    end
  else mret clips.

(** Enough fuel for the loop whatever the draws: every round but the last
    advances [current_time] by at least [cut_duration - 1 >= 2]. *)
Definition montage_fuel (total_duration : Q) : nat :=
  S (Z.to_nat (Qceiling total_duration)).

(** [generate_premiere_xml] up to its last line: the header, the segments of
    the spine and the footer. *)
Definition generate_premiere_xml_parts
    (audio_path : string) (video_paths : pyobj) (style : string)
    (total_duration : Q) : M (string * list clip * string) :=
  let audio_full_path := os_path_abspath E audio_path in
  let cut_duration := if String.eqb style "internal" then 3%Z else 6%Z in
  let xml_header :=
    "<?xml " +:+ attr "version" "1.0" +:+ " " +:+ attr "encoding" "UTF-8" +:+ "?>" +:+ nl +:+
    "<!DOCTYPE fcpxml>" +:+ nl +:+
    "<fcpxml " +:+ attr "version" "1.8" +:+ ">" +:+ nl +:+
    "    <resources>" +:+ nl +:+
    "        <format " +:+ attr "id" "r1" +:+ " " +:+
      attr "name" "FFVideoFormat1080p25" +:+ " " +:+
      attr "frameDuration" "100/2500s" +:+ " " +:+
      attr "width" "1920" +:+ " " +:+ attr "height" "1080" +:+ "/>" +:+ nl +:+
    "        <asset " +:+ attr "id" "audio1" +:+ " " +:+
      attr "name" "MasterAudio" +:+ " " +:+
      attr "src" ("file://" +:+ audio_full_path) +:+ " />" +:+ nl in
  vs ← call (py_iter video_paths);
  assets_str ←
    for_each (λ assets_str iv,
                abs_v ← call (abspath_of iv.2);
                mret (assets_str +:+ "        <asset " +:+
                      attr "id" ("cam" +:+ pretty iv.1) +:+ " " +:+
                      attr "name" ("Camera_" +:+ pretty (iv.1 + 1)%nat) +:+ " " +:+
                      attr "src" ("file://" +:+ abs_v) +:+ " />" +:+ nl))
             (imap (λ i v, (i, v)) vs) "";
  let xml_header :=
    xml_header +:+ assets_str +:+ "    </resources>" +:+ nl +:+
    "    <library>" +:+ nl +:+
    "        <event " +:+ attr "name" "MENBAR AI Montage" +:+ ">" +:+ nl +:+
    "            <project " +:+ attr "name" "AI_Montage_Result" +:+ ">" +:+ nl +:+
    "                <sequence " +:+ attr "format" "r1" +:+ " " +:+
      attr "duration" (str_of_float E total_duration +:+ "s") +:+ ">" +:+ nl +:+
    "                    <spine>" +:+ nl in
  cam_count ← call (py_len video_paths);
  clips ← montage_loop (montage_fuel total_duration) cut_duration cam_count
            total_duration (Int 0) [];
  let xml_footer :=
    "                    </spine>" +:+ nl +:+
    "                </sequence>" +:+ nl +:+
    "            </project>" +:+ nl +:+
    "        </event>" +:+ nl +:+
    "    </library>" +:+ nl +:+
    "</fcpxml>" in
  mret (xml_header, clips, xml_footer).

Definition generate_premiere_xml
    (audio_path : string) (video_paths : pyobj) (style : string)
    (total_duration : Q) : M string :=
  parts ← generate_premiere_xml_parts audio_path video_paths style total_duration;
  let '(xml_header, clips, xml_footer) := parts in
  let clips_xml := foldl (λ clips_xml c, clips_xml +:+ render_clip c) "" clips in
  mret (xml_header +:+ clips_xml +:+ xml_footer).

(** ** 4. Task functions *)

(** [with open(path, "w", encoding="utf-8") as f: f.write(content)].  What a
    failed write leaves on the disk is not modelled: [files] is then as it
    was. *)
Definition write_file (path content : string) : M unit := λ w,
  match write_text E path content with
  | Some e => (Raises e, w)
  | None =>
      (Returns tt,
       World (tasks_storage w) (uuid_calls w) (random_calls w)
             (<[path := content]> (files w)) (history w))
  end.

(** [time.sleep(seconds)] *)
Definition time_sleep (seconds : Q) : M unit := mret tt.

(** The [try] suite of [run_mix_task]. *)
Definition run_mix_task_try (task_id vocal_path slap_path : string) : M unit :=
  update_task_status task_id "processing"
    (PDict [("message", PStr "بدء مزج المسارات...")]) 10;;
  let out_file := path_join OUTPUTS_DIR ("mix_" +:+ task_id +:+ ".mp3") in
  mix_audio_aza vocal_path slap_path out_file;;
  update_task_status task_id "completed"
    (PDict [("output_url", PStr ("/outputs/mix_" +:+ task_id +:+ ".mp3"));
            ("file_path", PStr out_file)]) 100.

Definition run_mix_task (task_id vocal_path slap_path : string) : M unit :=
  try_except
    (run_mix_task_try task_id vocal_path slap_path)
    (λ e, update_task_status task_id "failed"
            (PDict [("error", PStr (str_exn e))]) 0).

(** The [try] suite of [run_srt_sync_task]. *)
Definition run_srt_sync_task_try (task_id audio_path lyrics : string) : M unit :=
  update_task_status task_id "processing"
    (PDict [("message", PStr "تحليل النبرات والمزامنة...")]) 10;;
  srt_content ← generate_srt_via_ai audio_path lyrics;
  let srt_filename := "sync_" +:+ task_id +:+ ".srt" in
  let srt_path := path_join OUTPUTS_DIR srt_filename in
  write_file srt_path srt_content;;
  update_task_status task_id "completed"
    (PDict [("output_url", PStr ("/outputs/" +:+ srt_filename));
            ("file_path", PStr srt_path);
            ("srt_content", PStr srt_content)]) 100.

Definition run_srt_sync_task (task_id audio_path lyrics : string) : M unit :=
  try_except
    (run_srt_sync_task_try task_id audio_path lyrics)
    (λ e, update_task_status task_id "failed"
            (PDict [("error", PStr (str_exn e))]) 0).

(** The [try] suite of [run_montage_task]. *)
Definition run_montage_task_try
    (task_id audio_path : string) (video_paths : pyobj) (lyrics style : string)
    : M unit :=
  update_task_status task_id "processing"
    (PDict [("message", PStr "بدء تحليل البصمة الصوتية...")]) 10;;
  duration ← get_audio_duration audio_path;
  update_task_status task_id "processing"
    (PDict [("message", PStr "تم تحليل المدة. جاري توزيع الكاميرات...")]) 35;;
  time_sleep 1.5;;
  update_task_status task_id "processing"
    (PDict [("message", PStr "بناء مشروع بريمير متكامل...")]) 70;;
  xml_content ← generate_premiere_xml audio_path video_paths style duration;
  let xml_filename := "montage_" +:+ task_id +:+ ".xml" in
  let xml_path := path_join OUTPUTS_DIR xml_filename in
  write_file xml_path xml_content;;
  update_task_status task_id "completed"
    (PDict [("output_url", PStr ("/outputs/" +:+ xml_filename));
            ("file_path", PStr xml_path);
            ("message", PStr "اكتمل المخرج الآلي بنجاح!")]) 100.

Definition run_montage_task
    (task_id audio_path : string) (video_paths : pyobj) (lyrics style : string)
    : M unit :=
  try_except
    (run_montage_task_try task_id audio_path video_paths lyrics style)
    (λ e, update_task_status task_id "failed"
            (PDict [("error", PStr (str_exn e))]) 0).

(** The [try] suite of [run_image_gen_task]. *)
Definition run_image_gen_task_try (task_id prompt : string) : M unit :=
  update_task_status task_id "processing" PNone 50;;
  safe_prompt ← call (requests_utils_quote E prompt);
  let image_url :=
    "https://image.pollinations.ai/prompt/" +:+ safe_prompt +:+
    "?width=1024&height=1024&nologo=true" in
  update_task_status task_id "completed"
    (PDict [("data", PList [PDict [("url", PStr image_url)]])]) 100.

Definition run_image_gen_task (task_id prompt : string) : M unit :=
  try_except
    (run_image_gen_task_try task_id prompt)
    (λ e, update_task_status task_id "failed"
            (PDict [("error", PStr (str_exn e))]) 0).

(** ** 5. Endpoints *)

(** A call registered with [background_tasks.add_task]: one of the four task
    functions with its arguments. *)
Inductive task : Type :=
  | MixTask (job_id vocal_path slap_path : string)
  | SrtSyncTask (job_id audio_path lyrics : string)
  | MontageTask (job_id audio_path : string) (v_list : pyobj)
                (lyrics style : string)
  | ImageGenTask (job_id prompt : string).

(** Running a registered call, as Starlette does once the response is sent. *)
Definition run_task (t : task) : M unit :=
  match t with
  | MixTask job_id vocal_path slap_path =>
      run_mix_task job_id vocal_path slap_path
  | SrtSyncTask job_id audio_path lyrics =>
      run_srt_sync_task job_id audio_path lyrics
  | MontageTask job_id audio_path v_list lyrics style =>
      run_montage_task job_id audio_path v_list lyrics style
  | ImageGenTask job_id prompt =>
      run_image_gen_task job_id prompt
  end.

(** The [try] suite of a registered call. *)
Definition run_task_try (t : task) : M unit :=
  match t with
  | MixTask job_id vocal_path slap_path =>
      run_mix_task_try job_id vocal_path slap_path
  | SrtSyncTask job_id audio_path lyrics =>
      run_srt_sync_task_try job_id audio_path lyrics
  | MontageTask job_id audio_path v_list lyrics style =>
      run_montage_task_try job_id audio_path v_list lyrics style
  | ImageGenTask job_id prompt =>
      run_image_gen_task_try job_id prompt
  end.

Definition task_id_of (t : task) : string :=
  match t with
  | MixTask job_id _ _ | SrtSyncTask job_id _ _
  | MontageTask job_id _ _ _ _ | ImageGenTask job_id _ => job_id
  end.

(** Each endpoint takes the [BackgroundTasks] of its request (the list of
    the calls registered so far) and returns it with the response. *)
Definition start_mix (background_tasks : list task)
    (vocal_path slap_path : string) : M (dict * list task) :=
  job_id ← uuid4_hex;
  update_task_status job_id "pending" PNone 0;;
  let background_tasks :=
    (background_tasks ++ [MixTask job_id vocal_path slap_path])%list in
  mret ([("job_id", PStr job_id)], background_tasks).

Definition start_srt_sync (background_tasks : list task)
    (audio_path lyrics : string) : M (dict * list task) :=
  job_id ← uuid4_hex;
  update_task_status job_id "pending" PNone 0;;
  let background_tasks :=
    (background_tasks ++ [SrtSyncTask job_id audio_path lyrics])%list in
  mret ([("job_id", PStr job_id)], background_tasks).

Definition start_montage (background_tasks : list task)
    (audio_path video_paths lyrics style : string) : M (dict * list task) :=
  v_list ← call (json_loads E video_paths);
  job_id ← uuid4_hex;
  update_task_status job_id "pending" PNone 0;;
  let background_tasks :=
    (background_tasks ++ [MontageTask job_id audio_path v_list lyrics style])%list in
  mret ([("job_id", PStr job_id)], background_tasks).

Definition start_image_gen (background_tasks : list task)
    (prompt : string) : M (dict * list task) :=
  job_id ← uuid4_hex;
  update_task_status job_id "pending" PNone 0;;
  let background_tasks := (background_tasks ++ [ImageGenTask job_id prompt])%list in
  mret ([("job_id", PStr job_id)], background_tasks).

Definition get_status (job_id : string) : M dict :=
  get_task_status job_id.

(** The form of a request to one of the four submitting endpoints. *)
Inductive submission : Type :=
  | PostMix (vocal_path slap_path : string)
  | PostSrtSync (audio_path lyrics : string)
  | PostMontageStart (audio_path video_paths lyrics style : string)
  | PostImageGenerate (prompt : string).

Definition submit (s : submission) (background_tasks : list task)
    : M (dict * list task) :=
  match s with
  | PostMix vocal_path slap_path =>
      start_mix background_tasks vocal_path slap_path
  | PostSrtSync audio_path lyrics =>
      start_srt_sync background_tasks audio_path lyrics
  | PostMontageStart audio_path video_paths lyrics style =>
      start_montage background_tasks audio_path video_paths lyrics style
  | PostImageGenerate prompt =>
      start_image_gen background_tasks prompt
  end.

End Program.

(** * Vocabulary of the statements *)

Local Open Scope list_scope.
Local Open Scope nat_scope.
Local Open Scope stdpp_scope.

(** The registry after the writes [ws], oldest first. *)
Definition replay (ws : list (string * dict)) (ts : gmap string dict)
    : gmap string dict :=
  foldl (λ ts x, <[x.1 := x.2]> ts) ts ws.

(** Between [w] and [w'] exactly the writes [ws] were made, in this order. *)
Definition wrote (w w' : world) (ws : list (string * dict)) : Prop :=
  history w' = (rev ws ++ history w)%list ∧
  tasks_storage w' = replay ws (tasks_storage w).

(** A computation that leaves the registry alone. *)
Definition silent {A} (m : M A) : Prop := ∀ w, wrote w (m w).2 [].

(** The record [update_task_status] stores. *)
Definition task_record (status : string) (result : pyobj) (progress : Z)
    (updated_at : string) : dict :=
  [("status", PStr status); ("result", result); ("progress", PInt progress);
   ("updated_at", PStr updated_at)].

(** [n] successive polls of [/status/{job_id}], oldest answer first. *)
Fixpoint poll (n : nat) (job_id : string) : M (list dict) :=
  match n with
  | O => mret []
  | S n' =>
      snapshot ← get_status job_id;
      snapshots ← poll n' job_id;
      mret (snapshot :: snapshots)
  end.

(** ** A concrete host, for the examples *)

Fixpoint drop_spaces (s : string) : string :=
  match s with
  | String c s' => if Ascii.is_space c then drop_spaces s' else s
  | EmptyString => EmptyString
  end.

(** [s.strip()] on ASCII text *)
Definition ascii_strip (s : string) : string :=
  String.rev (drop_spaces (String.rev (drop_spaces s))).

(** ["[" + dq + "cam1.mp4" + dq + "]"]: a JSON list of one path *)
Definition one_camera_json : string := "[" +:+ dq +:+ "cam1.mp4" +:+ dq +:+ "]".

(** A host without [ffmpeg], where [ffprobe] reports a length of zero for
    [silence.mp3] and fails on every other file, the disk accepts every
    write and the generator of [random] always draws zero. *)
Definition sample_host : externals := {|
  BASE_DIR := "/app/server";
  uuid_source := λ n, "uuid" +:+ pretty n;
  subprocess_run := λ cmd,
    match cmd with
    | "ffprobe" :: args =>
        if bool_decide (last args = Some "silence.mp3")
        then inr ("0.000000" +:+ nl)
        else inl (OtherException "Command returned non-zero exit status 1.")
    | _ => inl (OtherException "[Errno 2] No such file or directory: ffmpeg")
    end;
  float_of_str := λ s,
    if String.eqb s "0.000000" then inr 0%Q
    else inl (ValueError "could not convert string to float");
  str_of_float := λ x, pretty (Qnum x) +:+ "/" +:+ pretty (Z.pos (Qden x));
  str_strip := ascii_strip;
  os_path_abspath := λ p, "/app/" +:+ p;
  write_text := λ _ _, None;
  read_bytes := λ _, inr "";
  requests_post_json := λ _ _, inl (OtherException "Connection refused");
  requests_utils_quote := λ s, inr s;
  json_loads := λ s,
    if String.eqb s "[]" then inr (PList [])
    else if String.eqb s one_camera_json then inr (PList [PStr "cam1.mp4"])
    else inl (ValueError "Expecting value: line 1 column 1 (char 0)");
  str_chars := λ s, (λ c, String c "") <$> String.list_ascii_of_string s;
  random_source := λ _, 0%Z
|}.

(** ** The writes of one task execution *)

(** [x] is a write of [update_task_status] to [task_id] with this status
    and this progress. *)
Definition entry (task_id status : string) (progress : Z)
    (x : string * dict) : Prop :=
  ∃ result updated_at,
    x = (task_id, task_record status result progress updated_at).

(** The progress values a task function reports while processing. *)
Definition processing_steps (t : task) : list Z :=
  match t with
  | MixTask _ _ _ => [10]
  | SrtSyncTask _ _ _ => [10]
  | MontageTask _ _ _ _ _ => [10; 35; 70]
  | ImageGenTask _ _ => [50]
  end%Z.

(** The shape of the try suite of a task function: it reports its
    processing steps and, when it returns, has written [completed]. *)
Inductive try_shape (task_id : string) (steps : list Z)
    : outcome unit → list (string * dict) → Prop :=
  | try_returned ws x :
      Forall2 (entry task_id "processing") steps ws →
      entry task_id "completed" 100 x →
      try_shape task_id steps (Returns tt) (ws ++ [x])
  | try_raised ws e :
      Forall2 (entry task_id "processing") steps ws →
      try_shape task_id steps (Raises e) ws
  | try_out_of_fuel ws :
      Forall2 (entry task_id "processing") steps ws →
      try_shape task_id steps OutOfFuel ws.

(** The shape of an execution of a task function. *)
Inductive run_shape (task_id : string) (steps : list Z)
    : outcome unit → list (string * dict) → Prop :=
  | run_completed ws x :
      Forall2 (entry task_id "processing") steps ws →
      entry task_id "completed" 100 x →
      run_shape task_id steps (Returns tt) (ws ++ [x])
  | run_failed ws e updated_at :
      Forall2 (entry task_id "processing") steps ws →
      is_Exception e = true →
      run_shape task_id steps (Returns tt)
        (ws ++ [(task_id,
                 task_record "failed" (PDict [("error", PStr (str_exn e))]) 0
                   updated_at)])
  | run_escaped ws e :
      Forall2 (entry task_id "processing") steps ws →
      is_Exception e = false →
      run_shape task_id steps (Raises e) ws
  | run_out_of_fuel ws :
      Forall2 (entry task_id "processing") steps ws →
      run_shape task_id steps OutOfFuel ws.

(** ** Statuses and progress *)

Definition status_of (x : string * dict) : option string :=
  match dict_get "status" x.2 with
  | Some (PStr s) => Some s
  | _ => None
  end.

Definition progress_of (x : string * dict) : option Z :=
  match dict_get "progress" x.2 with
  | Some (PInt p) => Some p
  | _ => None
  end.

(** The order [pending < processing < {completed, failed}]. *)
Definition status_rank (s : string) : option nat :=
  if String.eqb s "pending" then Some 0
  else if String.eqb s "processing" then Some 1
  else if String.eqb s "completed" then Some 2
  else if String.eqb s "failed" then Some 2
  else None.

Definition status_le (s1 s2 : string) : Prop :=
  match status_rank s1, status_rank s2 with
  | Some r1, Some r2 => (r1 ≤ r2)%nat
  | _, _ => False
  end.

Definition is_terminal (s : string) : bool :=
  String.eqb s "completed" || String.eqb s "failed".

(** The progress values of the writes with status [processing], in order. *)
Definition processing_progress (ws : list (string * dict)) : list Z :=
  omap (λ x, match status_of x with
             | Some "processing" => progress_of x
             | _ => None
             end) ws.

(** A well-formed record of the registry. *)
Definition record_ok (r : dict) : Prop :=
  ∃ status p,
    dict_get "status" r = Some (PStr status) ∧
    dict_get "progress" r = Some (PInt p) ∧
    (0 ≤ p ≤ 100)%Z ∧
    (status = "pending" → p = 0%Z) ∧
    (status = "completed" → p = 100%Z).

(** What a client or the server can do: post a submission, let a
    registered task run, query a status. *)
Inductive action : Type :=
  | Submit (s : submission) (background_tasks : list task)
  | Run (t : task)
  | Query (job_id : string).

Definition perform (E : externals) (a : action) : M unit :=
  match a with
  | Submit s background_tasks => submit E s background_tasks;; mret tt
  | Run t => run_task E t
  | Query job_id => get_status job_id;; mret tt
  end.

(** A write the program makes in some action, on some host, in some
    world. *)
Definition program_write (x : string * dict) : Prop :=
  ∃ E a w ws, wrote w (perform E a w).2 ws ∧ x ∈ ws.

(** ** Timelines *)

(** The world after one draw of the generator of [random]. *)
Definition drawn (w : world) : world :=
  World (tasks_storage w) (uuid_calls w) (S (random_calls w)) (files w)
        (history w).

(** The cut duration of a style: 3 for ["internal"], 6 otherwise. *)
Definition cut_duration_of (style : string) : Z :=
  if String.eqb style "internal" then 3%Z else 6%Z.

(** The jitter band of a style: from [cut_duration - 1] to
    [cut_duration + 2]. *)
Definition in_band (style : string) (c : clip) : Prop :=
  (inject_Z (cut_duration_of style - 1) <= duration c)%Q ∧
  (duration c <= inject_Z (cut_duration_of style + 2))%Q.

(** The sum of the lengths of the segments. *)
Definition covered (clips : list clip) : Q :=
  foldr (λ c acc, (duration c + acc)%Q) 0%Q clips.

(** The segments the loop appends from [current_time = c] on: full cuts
    within the band while they fit, then one cut clamped to what is left
    of [total_duration]. *)
Inductive timeline (cut_duration cam_count : Z) (total_duration : Q)
    : Q → list clip → Prop :=
  | timeline_end c :
      (total_duration <= c)%Q →
      timeline cut_duration cam_count total_duration c []
  | timeline_cut c x rest :
      (c < total_duration)%Q →
      num_val (offset x) = c →
      (0 ≤ cam_idx x < cam_count)%Z →
      (inject_Z (cut_duration - 1) <= duration x)%Q →
      (duration x <= inject_Z (cut_duration + 2))%Q →
      (c + duration x <= total_duration)%Q →
      timeline cut_duration cam_count total_duration (c + duration x)%Q rest →
      timeline cut_duration cam_count total_duration c (x :: rest)
  | timeline_clamped c x :
      (c < total_duration)%Q →
      num_val (offset x) = c →
      (0 ≤ cam_idx x < cam_count)%Z →
      duration x = (total_duration - c)%Q →
      (total_duration - c < inject_Z (cut_duration + 2))%Q →
      timeline cut_duration cam_count total_duration c [x].

(** ** Probing the duration *)

(** The command line [get_audio_duration] runs. *)
Definition ffprobe_command (path : string) : list string :=
  ["ffprobe"; "-v"; "error"; "-show_entries"; "format=duration";
   "-of"; "default=noprint_wrappers=1:nokey=1"; path].

(** Probing fails: the subprocess raises, or what it prints is no number. *)
Definition probe_fails (E : externals) (path : string) : Prop :=
  (∃ e, subprocess_run E (ffprobe_command path) = inl e) ∨
  (∃ stdout e,
     subprocess_run E (ffprobe_command path) = inr stdout ∧
     float_of_str E (str_strip E stdout) = inl e).

(** The file a montage job writes. *)
Definition montage_xml_path (E : externals) (task_id : string) : string :=
  path_join (OUTPUTS_DIR E) ("montage_" +:+ task_id +:+ ".xml").

(** ** Termination *)

(** A computation whose loops never exhaust their fuel. *)
Definition terminates {A} (m : M A) : Prop := ∀ w, (m w).1 ≠ OutOfFuel.

(** * Further vocabulary: the processing functions and the tasks *)

(** The command lines of [ensure_ffmpeg], [mix_audio_aza] and
    [generate_srt_via_ai]. *)
Definition ffmpeg_version_command : list string := ["ffmpeg"; "-version"].

Definition mix_command (vocal_path slap_path output_path : string)
    : list string :=
  ["ffmpeg"; "-y"; "-i"; vocal_path; "-i"; slap_path; "-filter_complex";
   "[0:a]highpass=f=150,acompressor=threshold=-16dB:ratio=4:attack=5:release=50[voc];" +:+
   "[1:a]lowpass=f=3000,alimiter=limit=0.8[slap];" +:+
   "[voc][slap]amix=inputs=2:weights=1 0.7:normalize=0[out]";
   "-map"; "[out]"; output_path].

Definition vocal_isolation_command (E : externals) (audio_path u : string)
    : list string :=
  ["ffmpeg"; "-y"; "-i"; audio_path; "-af";
   "highpass=f=150,lowpass=f=3000,acompressor=threshold=-16dB:ratio=4";
   path_join (UPLOADS_DIR E) ("vocal_iso_" +:+ u +:+ ".mp3")].

Definition whisper_url : string :=
  "https://api-inference.huggingface.co/models/openai/whisper-large-v3".

(** The files the task functions name after their job. *)
Definition mix_output_path (E : externals) (task_id : string) : string :=
  path_join (OUTPUTS_DIR E) ("mix_" +:+ task_id +:+ ".mp3").

Definition srt_output_path (E : externals) (task_id : string) : string :=
  path_join (OUTPUTS_DIR E) ("sync_" +:+ task_id +:+ ".srt").

(** The file a task function writes itself, if any. *)
Definition written_file (E : externals) (t : task) : option string :=
  match t with
  | MixTask _ _ _ => None
  | SrtSyncTask job_id _ _ => Some (srt_output_path E job_id)
  | MontageTask job_id _ _ _ _ => Some (montage_xml_path E job_id)
  | ImageGenTask _ _ => None
  end.

(** The one cue of the subtitles [generate_srt_via_ai] builds. *)
Definition srt_cue (text : string) : string :=
  "1" +:+ nl +:+ "00:00:01,000 --> 00:00:10,000" +:+ nl +:+ text +:+ nl.

(** A line of the lyrics that [strip] leaves empty. *)
Definition blank (E : externals) (line : string) : Prop :=
  str_strip E line = "".

(** A decoded [video_paths] that is no list of paths: a value that cannot
    be iterated, or a list with an element that is no string. *)
Definition not_a_path_list (v : pyobj) : Prop :=
  match v with
  | PNone | PBool _ | PInt _ | PFloat _ => True
  | PList l => Exists (λ x, ∀ s, x ≠ PStr s) l
  | PStr _ | PDict _ => False
  end.

(** The record of the registry an action may change. *)
Definition touched (E : externals) (a : action) (w : world) : option string :=
  match a with
  | Submit _ _ => Some (uuid_source E (uuid_calls w))
  | Run t => Some (task_id_of t)
  | Query _ => None
  end.

(** A computation that writes no file but those of [paths]. *)
Definition writes_only {A} (paths : list string) (m : M A) : Prop :=
  ∀ w p, p ∉ paths → files (m w).2 !! p = files w !! p.

(** The try suite of [generate_srt_via_ai]. *)
Definition generate_srt_via_ai_try (E : externals) (audio_path lyrics : string)
    : M string :=
  u ← uuid4_hex E;
  let vocal_only_path :=
    path_join (UPLOADS_DIR E) ("vocal_iso_" +:+ u +:+ ".mp3") in
  ensure_ffmpeg E;;
  let filter_str :=
    "highpass=f=150,lowpass=f=3000,acompressor=threshold=-16dB:ratio=4" in
  let cmd :=
    ["ffmpeg"; "-y"; "-i"; audio_path; "-af"; filter_str; vocal_only_path] in
  call (subprocess_run E cmd);;
  let url :=
    "https://api-inference.huggingface.co/models/openai/whisper-large-v3" in
  data ← call (read_bytes E audio_path);
  result ← call (requests_post_json E url data);
  has_text ← call (py_contains "text" result);
  if negb has_text then
    mret ("1" +:+ nl +:+ "00:00:01,000 --> 00:00:10,000" +:+ nl +:+
          "[خطأ في الاتصال بالسحابة - يرجى المحاولة لاحقاً]" +:+ nl)
  else
    let user_lines :=
      map (str_strip E)
          (filter (λ l, str_strip E l ≠ "") (split_lines lyrics)) in
    mret ("1" +:+ nl +:+ "00:00:01,000 --> 00:00:10,000" +:+ nl +:+
          (match user_lines with l :: _ => l | [] => "..." end) +:+ nl).

(** The world in which [run_srt_sync_task] calls [generate_srt_via_ai]:
    the one its first write leaves. *)
Definition srt_job_started (E : externals) (task_id : string) (w : world)
    : world :=
  (update_task_status E task_id "processing"
     (PDict [("message", PStr "تحليل النبرات والمزامنة...")]) 10 w).2.

(** A computation that leaves the whole world as it is. *)
Definition stateless {A} (m : M A) : Prop := ∀ w, (m w).2 = w.

(** Between [w] and [w'] the generator of [random] made [n] draws and
    nothing else changed. *)
Definition only_draws (n : nat) (w w' : world) : Prop :=
  w' = World (tasks_storage w) (uuid_calls w) (random_calls w + n) (files w)
             (history w).

(** A host where every collaborator answers: [ffmpeg] is installed,
    [ffprobe] reports 12.5 seconds, the transcription service replies with
    a text and the generator of [random] makes a different draw each
    time. *)
Definition studio_host : externals := {|
  BASE_DIR := "/app/server";
  uuid_source := λ n, "uuid" +:+ pretty n;
  subprocess_run := λ cmd,
    match cmd with
    | "ffprobe" :: _ => inr ("12.5" +:+ nl)
    | _ => inr ""
    end;
  float_of_str := λ s,
    if String.eqb s "12.5" then inr (25 # 2)%Q
    else inl (ValueError "could not convert string to float");
  str_of_float := λ x, pretty (Qnum x) +:+ "/" +:+ pretty (Z.pos (Qden x));
  str_strip := ascii_strip;
  os_path_abspath := λ p, "/app/" +:+ p;
  write_text := λ _ _, None;
  read_bytes := λ _, inr "RIFF";
  requests_post_json := λ _ _, inr (PDict [("text", PStr "la la la")]);
  requests_utils_quote := λ s, inr s;
  json_loads := λ s,
    if String.eqb s "[]" then inr (PList [])
    else if String.eqb s one_camera_json then inr (PList [PStr "cam1.mp4"])
    else if String.eqb s "null" then inr PNone
    else inl (ValueError "Expecting value: line 1 column 1 (char 0)");
  str_chars := λ s, (λ c, String c "") <$> String.list_ascii_of_string s;
  random_source := λ n, (Z.of_nat n * 2 ^ 51 + 12345)%Z
|}.

(** The world after a sequence of actions. *)
Definition perform_all (E : externals) (actions : list action) (w : world)
    : world :=
  foldl (λ w a, (perform E a w).2) w actions.

(** ** The server as a whole *)

(** The process and the task calls that wait for their turn. *)
Record server : Type := Server {
  state : world;
  background : list task
}.

(** What happens to the server: a client posts a submission, the n-th
    waiting task call runs to its end, a client asks for a status.  Task
    executions are taken one at a time: nothing else happens between the
    writes of one execution. *)
Inductive event : Type :=
  | Request (s : submission)
  | Background (n : nat)
  | Status (job_id : string).

Definition handle (E : externals) (sv : server) (ev : event) : server :=
  match ev with
  | Request s =>
      match submit E s [] (state sv) with
      | (Returns (_, tasks), w') => Server w' (background sv ++ tasks)
      | (_, w') => Server w' (background sv)
      end
  | Background n =>
      match background sv !! n with
      | Some t => Server (run_task E t (state sv)).2 (delete n (background sv))
      | None => sv
      end
  | Status job_id => Server (get_status job_id (state sv)).2 (background sv)
  end.

(** The server after a sequence of events, from the start of the process. *)
Definition serve (E : externals) (events : list event) : server :=
  foldl (handle E) (Server initial_world []) events.

(** The [updated_at] marker of a write. *)
Definition marker_of (x : string * dict) : option string :=
  match dict_get "updated_at" x.2 with
  | Some (PStr u) => Some u
  | _ => None
  end.

(** The writes [ws], made while the count of [uuid4] calls went from [lo]
    to [hi], carry the values of distinct calls among these, in order. *)
Definition marked (E : externals) (lo hi : nat) (ws : list (string * dict))
    : Prop :=
  lo ≤ hi ∧
  ∃ ks, StronglySorted lt ks ∧ Forall (λ k, lo ≤ k < hi) ks ∧
        Forall2 (λ x k, marker_of x = Some (uuid_source E k)) ws ks.

(** A computation whose writes are marked by its own [uuid4] calls. *)
Definition tracked (E : externals) {A} (m : M A) : Prop :=
  ∀ w, ∃ ws, wrote w (m w).2 ws ∧
             marked E (uuid_calls w) (uuid_calls (m w).2) ws.

(** The statuses written for a job since the start, oldest first. *)
Definition statuses_of_job (job_id : string) (w : world) : list string :=
  rev (omap status_of (filter (λ x, x.1 = job_id) (history w))).

(** The life of a job: nothing yet, or [pending], then [processing] any
    number of times, then at most one of [completed] and [failed]. *)
Definition lifecycle (statuses : list string) : Prop :=
  statuses = [] ∨
  ∃ n ending,
    statuses = "pending" :: replicate n "processing" ++ ending ∧
    (ending = [] ∨ ending = ["completed"] ∨ ending = ["failed"]).

(** What holds of the server after every sequence of events when [uuid4]
    never repeats a value. *)
Record server_ok (E : externals) (sv : server) : Prop := ServerOk {
  ok_coherent :
    tasks_storage (state sv) = replay (rev (history (state sv))) ∅;
  ok_issued :
    Forall (λ x : string * dict,
              ∃ k, k < uuid_calls (state sv) ∧ x.1 = uuid_source E k)
           (history (state sv));
  ok_waiting :
    Forall (λ t, (∃ k, k < uuid_calls (state sv) ∧
                      task_id_of t = uuid_source E k) ∧
                 statuses_of_job (task_id_of t) (state sv) = ["pending"])
           (background sv);
  ok_distinct : NoDup (task_id_of <$> background sv);
  ok_lifecycle : ∀ job_id, lifecycle (statuses_of_job job_id (state sv));
  ok_markers :
    ∃ ks, StronglySorted gt ks ∧
          Forall (λ k, k < uuid_calls (state sv)) ks ∧
          Forall2 (λ x k, marker_of x = Some (uuid_source E k))
                  (history (state sv)) ks
}.

(** * Reasoning about the monad *)

Lemma bind_Returns {A B} (m : M A) (f : A → M B) w a w' :
  m w = (Returns a, w') → (m ≫= f) w = f a w'.
Proof. intros H. unfold mbind, M_bind. by rewrite H. Qed.

Lemma bind_Raises {A B} (m : M A) (f : A → M B) w e w' :
  m w = (Raises e, w') → (m ≫= f) w = (Raises e, w').
Proof. intros H. unfold mbind, M_bind. by rewrite H. Qed.

Lemma bind_OutOfFuel {A B} (m : M A) (f : A → M B) w w' :
  m w = (OutOfFuel, w') → (m ≫= f) w = (OutOfFuel, w').
Proof. intros H. unfold mbind, M_bind. by rewrite H. Qed.

(** ** Writes to the registry *)

Lemma wrote_nil w w' :
  history w' = history w → tasks_storage w' = tasks_storage w → wrote w w' [].
Proof. intros H1 H2. by split. Qed.

Lemma wrote_app w1 w2 w3 ws1 ws2 :
  wrote w1 w2 ws1 → wrote w2 w3 ws2 → wrote w1 w3 (ws1 ++ ws2).
Proof.
  intros [H1 H1'] [H2 H2']. split.
  - rewrite H2, H1, rev_app_distr. by rewrite app_assoc.
  - rewrite H2', H1'. unfold replay. by rewrite foldl_app.
Qed.

Lemma wrote_inj w w' ws1 ws2 : wrote w w' ws1 → wrote w w' ws2 → ws1 = ws2.
Proof.
  intros [H1 _] [H2 _]. rewrite H1 in H2.
  apply app_inv_tail in H2.
  by rewrite <- (rev_involutive ws1), H2, rev_involutive.
Qed.

Lemma silent_eq {A} (m : M A) w o w' :
  silent m → m w = (o, w') →
  history w' = history w ∧ tasks_storage w' = tasks_storage w.
Proof. intros Hm Hw. specialize (Hm w). rewrite Hw in Hm. apply Hm. Qed.

Lemma silent_ret {A} (a : A) : silent (mret a).
Proof. intros w. by apply wrote_nil. Qed.

Lemma silent_raise {A} e : silent (@raise A e).
Proof. intros w. by apply wrote_nil. Qed.

Lemma silent_out_of_fuel {A} : silent (@out_of_fuel A).
Proof. intros w. by apply wrote_nil. Qed.

Lemma silent_call {A} (r : exn + A) : silent (call r).
Proof. destruct r; [apply silent_raise | apply silent_ret]. Qed.

Lemma silent_bind {A B} (m : M A) (f : A → M B) :
  silent m → (∀ a, silent (f a)) → silent (m ≫= f).
Proof.
  intros Hm Hf w. destruct (m w) as [[a|e|] w1] eqn:Hw.
  - rewrite (bind_Returns _ _ _ _ _ Hw).
    change [] with (@nil (string * dict) ++ [])%list.
    eapply wrote_app; [|apply Hf]. specialize (Hm w). by rewrite Hw in Hm.
  - rewrite (bind_Raises _ _ _ _ _ Hw). specialize (Hm w). by rewrite Hw in Hm.
  - rewrite (bind_OutOfFuel _ _ _ _ Hw). specialize (Hm w). by rewrite Hw in Hm.
Qed.

Lemma silent_try_except {A} (body : M A) handler :
  silent body → (∀ e, silent (handler e)) → silent (try_except body handler).
Proof.
  intros Hb Hh w. unfold try_except. specialize (Hb w).
  destruct (body w) as [[a|e|] w1] eqn:Hw; try done.
  destruct (is_Exception e); [|done].
  change [] with (@nil (string * dict) ++ [])%list.
  eapply wrote_app; [apply Hb | apply Hh].
Qed.

Lemma silent_try_except_all {A} (body handler : M A) :
  silent body → silent handler → silent (try_except_all body handler).
Proof.
  intros Hb Hh w. unfold try_except_all. specialize (Hb w).
  destruct (body w) as [[a|e|] w1] eqn:Hw; try done.
  change [] with (@nil (string * dict) ++ [])%list.
  eapply wrote_app; [apply Hb | apply Hh].
Qed.

Lemma silent_for_each {A B} (step : B → A → M B) xs acc :
  (∀ acc x, silent (step acc x)) → silent (for_each step xs acc).
Proof.
  intros Hs. revert acc. induction xs as [|x xs IH]; intros acc; simpl.
  - apply silent_ret.
  - apply silent_bind; [apply Hs | apply IH].
Qed.

Create HintDb silent discriminated.
#[export] Hint Resolve silent_ret silent_raise silent_out_of_fuel silent_call
  silent_bind silent_try_except silent_try_except_all silent_for_each : silent.

Ltac silent :=
  repeat first
    [ progress intros
    | apply silent_ret | apply silent_raise | apply silent_out_of_fuel
    | apply silent_call | apply silent_bind | apply silent_try_except
    | apply silent_try_except_all | apply silent_for_each
    | match goal with
      | |- silent (if ?b then _ else _) => destruct b
      | |- silent (match ?x with _ => _ end) => destruct x
      | |- silent (let _ := _ in _) => cbv zeta
      end
    | solve [eauto with silent] ].

Section Silent.
Context (E : externals).

Lemma silent_uuid4_hex : silent (uuid4_hex E).
Proof. intros w. by apply wrote_nil. Qed.

Lemma silent_random_draw : silent (random_draw E).
Proof. intros w. by apply wrote_nil. Qed.

Lemma silent_write_file path content : silent (write_file E path content).
Proof.
  intros w. unfold write_file. destruct (write_text E path content);
    by apply wrote_nil.
Qed.

Hint Resolve silent_uuid4_hex silent_random_draw silent_write_file : silent.

Lemma silent_ensure_ffmpeg : silent (ensure_ffmpeg E).
Proof. unfold ensure_ffmpeg. silent. Qed.

Hint Resolve silent_ensure_ffmpeg : silent.

Lemma silent_get_audio_duration path : silent (get_audio_duration E path).
Proof. unfold get_audio_duration. silent. Qed.

Lemma silent_mix_audio_aza vocal_path slap_path output_path :
  silent (mix_audio_aza E vocal_path slap_path output_path).
Proof. unfold mix_audio_aza. silent. Qed.

Lemma silent_generate_srt_via_ai audio_path lyrics :
  silent (generate_srt_via_ai E audio_path lyrics).
Proof. unfold generate_srt_via_ai. silent. Qed.

Lemma silent_random_randint a b : silent (random_randint E a b).
Proof. unfold random_randint. silent. Qed.

Lemma silent_random_uniform a b : silent (random_uniform E a b).
Proof. unfold random_uniform, random_random. silent. Qed.

Hint Resolve silent_random_randint silent_random_uniform : silent.

Lemma silent_montage_loop fuel cut_duration cam_count total_duration
    current_time clips :
  silent (montage_loop E fuel cut_duration cam_count total_duration
            current_time clips).
Proof.
  revert current_time clips.
  induction fuel as [|fuel IH]; intros current_time clips; simpl; silent.
Qed.

Hint Resolve silent_montage_loop : silent.

Lemma silent_generate_premiere_xml audio_path video_paths style total_duration :
  silent (generate_premiere_xml E audio_path video_paths style total_duration).
Proof. unfold generate_premiere_xml, generate_premiere_xml_parts. silent. Qed.

Lemma silent_time_sleep seconds : silent (time_sleep seconds).
Proof. apply silent_ret. Qed.

Lemma silent_get_task_status task_id : silent (get_task_status task_id).
Proof. intros w. by apply wrote_nil. Qed.

End Silent.

#[export] Hint Resolve silent_uuid4_hex silent_random_draw silent_write_file
  silent_ensure_ffmpeg silent_get_audio_duration silent_mix_audio_aza
  silent_generate_srt_via_ai silent_random_randint silent_random_uniform
  silent_montage_loop silent_generate_premiere_xml silent_time_sleep
  silent_get_task_status : silent.

(** * The registry and the status query *)

Lemma update_task_status_eq E task_id status result progress w :
  update_task_status E task_id status result progress w =
  (Returns tt,
   let record := task_record status result progress
                   (uuid_source E (uuid_calls w)) in
   World (<[task_id := record]> (tasks_storage w)) (S (uuid_calls w))
         (random_calls w) (files w) ((task_id, record) :: history w)).
Proof. reflexivity. Qed.

Lemma update_task_status_wrote E task_id status result progress w :
  wrote w (update_task_status E task_id status result progress w).2
    [(task_id, task_record status result progress
                 (uuid_source E (uuid_calls w)))].
Proof. by rewrite update_task_status_eq. Qed.

(** C4: for a job id that is not in the registry, [get_task_status] and the
    [/status/{job_id}] endpoint return the not-found record, whose status
    is the string [NOT_FOUND] and whose progress is 0; the call returns
    (it does not raise) and the world, hence the registry, is unchanged. *)
Theorem get_status_unknown_id (job_id : string) (w : world) :
  tasks_storage w !! job_id = None →
  get_task_status job_id w =
    (Returns [("status", PStr "NOT_FOUND"); ("progress", PInt 0)], w) ∧
  get_status job_id w = get_task_status job_id w ∧
  tasks_storage (get_status job_id w).2 = tasks_storage w.
Proof.
  intros Hnone. unfold get_status, get_task_status. rewrite Hnone. done.
Qed.

Lemma get_status_unknown_id_witness :
  get_task_status "0123456789abcdef0123456789abcdef" initial_world =
    (Returns [("status", PStr "NOT_FOUND"); ("progress", PInt 0)],
     initial_world).
Proof.
  apply (get_status_unknown_id "0123456789abcdef0123456789abcdef"
           initial_world).
  reflexivity.
Defined.

(** C7: a status query is read-only and idempotent.  For every world and
    every job id the query returns the stored record (or the not-found
    record) and leaves the world as it was; a second query, and any number
    of successive polls, return that same snapshot. *)
Theorem get_status_idempotent (job_id : string) (w : world) (n : nat) :
  let snapshot := default NOT_FOUND_record (tasks_storage w !! job_id) in
  get_status job_id w = (Returns snapshot, w) ∧
  get_status job_id (get_status job_id w).2 = get_status job_id w ∧
  poll n job_id w = (Returns (replicate n snapshot), w).
Proof.
  simpl. split; [done|]. split; [done|].
  induction n as [|n IH]; [done|]. simpl.
  erewrite bind_Returns by reflexivity.
  erewrite bind_Returns by apply IH. done.
Qed.

(** * Submission *)

(** A submission is accepted, with one [uuid4] call for the id and one
    write, or rejected before anything happened. *)
Lemma submit_cases E s background_tasks w :
  let job_id := uuid_source E (uuid_calls w) in
  (∃ t, task_id_of t = job_id ∧
        submit E s background_tasks w =
        (Returns ([("job_id", PStr job_id)], background_tasks ++ [t]),
         (update_task_status E job_id "pending" PNone 0 (uuid4_hex E w).2).2)) ∨
  (∃ e, submit E s background_tasks w = (Raises e, w)).
Proof.
  simpl. destruct s; simpl;
    unfold start_mix, start_srt_sync, start_montage, start_image_gen.
  3: { destruct (json_loads E video_paths) as [e|v_list] eqn:Hj; simpl.
       - right. exists e. by erewrite bind_Raises by reflexivity.
       - left. eexists. split; [|
           erewrite bind_Returns by reflexivity;
           erewrite bind_Returns by reflexivity;
           erewrite bind_Returns by apply update_task_status_eq;
           reflexivity]. done. }
  all: left; eexists; (split; [|
         erewrite bind_Returns by reflexivity;
         erewrite bind_Returns by apply update_task_status_eq;
         reflexivity]); done.
Qed.

(** C5: when a submitting endpoint accepts a request, the job id it returns
    is the value of the [uuid4] call it has just made, the registry holds
    under that id a record with status [pending], progress 0 and no
    result, written before the endpoint returns (it is the one write of
    the endpoint), the task registered for the background carries the same
    id, and a status query in the world the endpoint leaves returns that
    pending record, not the not-found record. *)
Theorem submit_creates_pending_record (E : externals) (s : submission)
    (background_tasks : list task) (w : world)
    (response : dict) (background_tasks' : list task) (w' : world) :
  submit E s background_tasks w = (Returns (response, background_tasks'), w') →
  let job_id := uuid_source E (uuid_calls w) in
  let record :=
    [("status", PStr "pending"); ("result", PNone); ("progress", PInt 0);
     ("updated_at", PStr (uuid_source E (S (uuid_calls w))))] in
  response = [("job_id", PStr job_id)] ∧
  wrote w w' [(job_id, record)] ∧
  tasks_storage w' !! job_id = Some record ∧
  get_status job_id w' = (Returns record, w') ∧
  (∃ t, background_tasks' = (background_tasks ++ [t])%list ∧
        task_id_of t = job_id).
Proof.
  intros Hs. simpl.
  destruct (submit_cases E s background_tasks w) as [(t & Ht & Hok)|[e He]];
    [|by rewrite He in Hs].
  rewrite Hok in Hs. injection Hs as <- <- <-. simpl.
  split; [done|]. split; [by split|].
  split; [apply lookup_insert_eq|].
  split; [|by exists t].
  unfold get_status, get_task_status. simpl. by rewrite lookup_insert_eq.
Qed.

Lemma submit_creates_pending_record_witness :
  tasks_storage
    (submit sample_host (PostMix "vocal.mp3" "slap.mp3") [] initial_world).2
    !! "uuid0" =
  Some [("status", PStr "pending"); ("result", PNone); ("progress", PInt 0);
        ("updated_at", PStr "uuid1")].
Proof.
  pose proof (submit_creates_pending_record sample_host
    (PostMix "vocal.mp3" "slap.mp3") [] initial_world _ _ _ eq_refl) as H.
  apply H.
Defined.

(** C9: when the [video_paths] field of a montage submission is not valid
    JSON ([json.loads] raises), [start_montage] raises that exception to
    its caller and the world is exactly as before: no [uuid4] call was made
    (no job id allocated), the registry has no new record and no
    background task was registered. *)
Theorem start_montage_rejects_malformed_video_paths (E : externals)
    (background_tasks : list task)
    (audio_path video_paths lyrics style : string) (w : world) (e : exn) :
  json_loads E video_paths = inl e →
  start_montage E background_tasks audio_path video_paths lyrics style w =
    (Raises e, w).
Proof.
  intros Hj. unfold start_montage. rewrite Hj. simpl.
  by erewrite bind_Raises by reflexivity.
Qed.

Lemma start_montage_rejects_malformed_video_paths_witness :
  start_montage sample_host [] "audio.mp3" "cam1.mp4,cam2.mp4" "" "internal"
    initial_world =
  (Raises (ValueError "Expecting value: line 1 column 1 (char 0)"),
   initial_world).
Proof.
  apply (start_montage_rejects_malformed_video_paths sample_host).
  reflexivity.
Defined.

(** * The task functions *)

Lemma entry_task_record task_id status result progress updated_at :
  entry task_id status progress
    (task_id, task_record status result progress updated_at).
Proof. by exists result, updated_at. Qed.

(** One step of a try suite: a write by [update_task_status]. *)
Ltac step_update :=
  erewrite bind_Returns by apply update_task_status_eq.

(** One step of a try suite: a computation that leaves the registry alone. *)
Ltac step_silent H :=
  match goal with
  | |- context [mbind _ ?m ?w] =>
      let o := fresh "o" in let w' := fresh "w" in
      let Hm := fresh "Hm" in let Hh := fresh "Hh" in let Ht := fresh "Ht" in
      destruct (m w) as [o w'] eqn:Hm;
      destruct (silent_eq m w o w' H Hm) as [Hh Ht]; simpl in Hh, Ht;
      destruct o as [?|?|];
      [ erewrite bind_Returns by apply Hm
      | erewrite bind_Raises by apply Hm
      | erewrite bind_OutOfFuel by apply Hm ]
  end.

(** The writes are read off the final world. *)
Tactic Notation "read_writes" uconstr(ws) :=
  refine (ex_intro _ ws _); unfold wrote; simpl in *;
  repeat match goal with
         | H : history _ = _ |- _ => rewrite H; clear H
         | H : tasks_storage _ = _ |- _ => rewrite H; clear H
         end;
  split; [by split|].

Ltac entries := repeat constructor; apply entry_task_record.

Section Tasks.
Context (E : externals).

Lemma run_mix_task_try_shape task_id vocal_path slap_path w :
  ∃ ws, wrote w (run_mix_task_try E task_id vocal_path slap_path w).2 ws ∧
        try_shape task_id [10%Z]
          (run_mix_task_try E task_id vocal_path slap_path w).1 ws.
Proof.
  unfold run_mix_task_try. step_update.
  step_silent (silent_mix_audio_aza E vocal_path slap_path
    (path_join (OUTPUTS_DIR E) ("mix_" +:+ task_id +:+ ".mp3"))).
  - rewrite update_task_status_eq. read_writes [_; _].
    apply (try_returned _ _ [_]); entries.
  - read_writes [_]. apply try_raised; entries.
  - read_writes [_]. apply try_out_of_fuel; entries.
Qed.

Lemma run_srt_sync_task_try_shape task_id audio_path lyrics w :
  ∃ ws, wrote w (run_srt_sync_task_try E task_id audio_path lyrics w).2 ws ∧
        try_shape task_id [10%Z]
          (run_srt_sync_task_try E task_id audio_path lyrics w).1 ws.
Proof.
  unfold run_srt_sync_task_try. step_update.
  step_silent (silent_generate_srt_via_ai E audio_path lyrics).
  - step_silent (silent_write_file E
      (path_join (OUTPUTS_DIR E) ("sync_" +:+ task_id +:+ ".srt")) a).
    + rewrite update_task_status_eq. read_writes [_; _].
      apply (try_returned _ _ [_]); entries.
    + read_writes [_]. apply try_raised; entries.
    + read_writes [_]. apply try_out_of_fuel; entries.
  - read_writes [_]. apply try_raised; entries.
  - read_writes [_]. apply try_out_of_fuel; entries.
Qed.

Lemma run_montage_task_try_shape task_id audio_path video_paths lyrics style w :
  ∃ ws,
    wrote w
      (run_montage_task_try E task_id audio_path video_paths lyrics style w).2
      ws ∧
    try_shape task_id [10; 35; 70]%Z
      (run_montage_task_try E task_id audio_path video_paths lyrics style w).1
      ws.
Proof.
  unfold run_montage_task_try. step_update.
  step_silent (silent_get_audio_duration E audio_path).
  - step_update. erewrite bind_Returns by reflexivity. step_update.
    step_silent (silent_generate_premiere_xml E audio_path video_paths style a).
    + step_silent (silent_write_file E
        (path_join (OUTPUTS_DIR E) ("montage_" +:+ task_id +:+ ".xml")) a0).
      * rewrite update_task_status_eq. read_writes [_; _; _; _].
        apply (try_returned _ _ [_; _; _]); entries.
      * read_writes [_; _; _]. apply try_raised; entries.
      * read_writes [_; _; _]. apply try_out_of_fuel; entries.
    + read_writes [_; _; _]. apply try_raised; entries.
    + read_writes [_; _; _]. apply try_out_of_fuel; entries.
  - exfalso. revert Hm. unfold get_audio_duration, try_except_all.
    by repeat case_match.
  - exfalso. revert Hm. unfold get_audio_duration, try_except_all.
    unfold mbind, M_bind, call, raise. by repeat case_match.
Qed.

Lemma run_image_gen_task_try_shape task_id prompt w :
  ∃ ws, wrote w (run_image_gen_task_try E task_id prompt w).2 ws ∧
        try_shape task_id [50%Z] (run_image_gen_task_try E task_id prompt w).1 ws.
Proof.
  unfold run_image_gen_task_try. step_update.
  step_silent (@silent_call string (requests_utils_quote E prompt)).
  - rewrite update_task_status_eq. read_writes [_; _].
    apply (try_returned _ _ [_]); entries.
  - read_writes [_]. apply try_raised; entries.
  - read_writes [_]. apply try_out_of_fuel; entries.
Qed.

Lemma run_task_unfold t :
  run_task E t =
  try_except (run_task_try E t)
    (λ e, update_task_status E (task_id_of t) "failed"
            (PDict [("error", PStr (str_exn e))]) 0).
Proof. by destruct t. Qed.

Lemma run_task_try_shape t w :
  ∃ ws, wrote w (run_task_try E t w).2 ws ∧
        try_shape (task_id_of t) (processing_steps t) (run_task_try E t w).1 ws.
Proof.
  destruct t; simpl.
  - apply run_mix_task_try_shape.
  - apply run_srt_sync_task_try_shape.
  - apply run_montage_task_try_shape.
  - apply run_image_gen_task_try_shape.
Qed.

(** What [except Exception as e] makes of the shape of the try suite. *)
Lemma run_task_shape t w :
  ∃ ws, wrote w (run_task E t w).2 ws ∧
        run_shape (task_id_of t) (processing_steps t) (run_task E t w).1 ws.
Proof.
  destruct (run_task_try_shape t w) as (ws & Hw & Hs).
  rewrite run_task_unfold. unfold try_except.
  destruct (run_task_try E t w) as [o w1]. simpl in Hw, Hs.
  inversion Hs as [ws0 x H1 H2|ws0 e H1|ws0 H1]; subst.
  - exists (ws0 ++ [x])%list. split; [done|]. by apply run_completed.
  - destruct (is_Exception e) eqn:He.
    + eexists. split.
      * eapply wrote_app; [apply Hw | apply update_task_status_wrote].
      * rewrite update_task_status_eq. by apply run_failed.
    + exists ws. split; [done|]. by apply run_escaped.
  - exists ws. split; [done|]. by apply run_out_of_fuel.
Qed.

End Tasks.

(** C1 (amended): when the try suite of a task function raises an exception
    [e] that is an instance of [Exception], the task function catches it,
    returns normally (the exception does not propagate) and its one further
    write is the terminal record with status [failed], result
    [{"error": str(e)}] and progress 0, the default of [update_task_status],
    whatever progress the job had reported. *)
Theorem task_failure_is_recorded (E : externals) (t : task) (w w1 : world)
    (e : exn) :
  run_task_try E t w = (Raises e, w1) →
  is_Exception e = true →
  let record :=
    [("status", PStr "failed");
     ("result", PDict [("error", PStr (str_exn e))]);
     ("progress", PInt 0);
     ("updated_at", PStr (uuid_source E (uuid_calls w1)))] in
  ∃ w2,
    run_task E t w = (Returns tt, w2) ∧
    wrote w1 w2 [(task_id_of t, record)] ∧
    tasks_storage w2 !! task_id_of t = Some record.
Proof.
  intros Htry He. simpl. rewrite run_task_unfold. unfold try_except.
  rewrite Htry, He, update_task_status_eq. eexists. split; [done|].
  simpl. split; [by split|]. apply lookup_insert_eq.
Qed.

Lemma task_failure_is_recorded_witness :
  ∃ w2,
    run_task sample_host (MixTask "job" "vocal.mp3" "slap.mp3") initial_world =
      (Returns tt, w2) ∧
    tasks_storage w2 !! "job" =
      Some [("status", PStr "failed");
            ("result",
             PDict [("error",
                     PStr "500: FFmpeg is not installed on the server.")]);
            ("progress", PInt 0);
            ("updated_at", PStr "uuid1")].
Proof.
  destruct (task_failure_is_recorded sample_host
              (MixTask "job" "vocal.mp3" "slap.mp3") initial_world
              (run_task_try sample_host (MixTask "job" "vocal.mp3" "slap.mp3")
                 initial_world).2
              (HTTPException 500 "FFmpeg is not installed on the server.")
              eq_refl eq_refl) as (w2 & Hrun & _ & Hrec).
  exists w2. split; [exact Hrun | exact Hrec].
Defined.

(** C1 as stated fails: on a host without [ffmpeg] the mix task reports
    progress 10, then [mix_audio_aza] raises; the failed record carries
    progress 0, not the progress 10 the job had reached. *)
Lemma task_failure_keeps_progress_counterexample :
  let t := MixTask "job" "vocal.mp3" "slap.mp3" in
  ∃ e w1,
    run_task_try sample_host t initial_world = (Raises e, w1) ∧
    is_Exception e = true ∧
    tasks_storage w1 !! "job" ≫= dict_get "progress" = Some (PInt 10) ∧
    tasks_storage (run_task sample_host t initial_world).2 !! "job"
      ≫= dict_get "status" = Some (PStr "failed") ∧
    tasks_storage (run_task sample_host t initial_world).2 !! "job"
      ≫= dict_get "progress" = Some (PInt 0) ∧
    PInt 0 ≠ PInt 10.
Proof.
  simpl. eexists _, _. split; [vm_compute; reflexivity|].
  split; [reflexivity|]. split; [vm_compute; reflexivity|].
  split; [vm_compute; reflexivity|]. split; [vm_compute; reflexivity|].
  discriminate.
Qed.

(** * Lifecycle of the statuses *)

Lemma processing_entries task_id steps ws :
  Forall2 (entry task_id "processing") steps ws →
  Forall (λ x, x.1 = task_id) ws ∧
  Forall2 (λ x s, status_of x = Some s) ws
    (replicate (length steps) "processing") ∧
  Forall2 (λ x p, progress_of x = Some p) ws steps ∧
  processing_progress ws = steps.
Proof.
  induction 1 as [|p x steps ws (r & u & ->) _ (IH1 & IH2 & IH3 & IH4)].
  - by repeat split.
  - repeat split; try by constructor.
    unfold processing_progress in *. simpl. f_equal. exact IH4.
Qed.

Lemma processing_progress_app ws1 ws2 :
  processing_progress (ws1 ++ ws2) =
  (processing_progress ws1 ++ processing_progress ws2)%list.
Proof. apply omap_app. Qed.

Lemma run_task_statuses E t w :
  ∃ ws ending,
    wrote w (run_task E t w).2 ws ∧
    Forall (λ x, x.1 = task_id_of t) ws ∧
    Forall2 (λ x s, status_of x = Some s) ws
      (replicate (length (processing_steps t)) "processing" ++ ending) ∧
    processing_progress ws = processing_steps t ∧
    (ending = [] ∨ ending = ["completed"] ∨ ending = ["failed"]).
Proof.
  destruct (run_task_shape E t w) as (ws & Hw & Hs).
  inversion Hs as [ws0 x H1 (r & u & ->)|ws0 e u H1 He|ws0 e H1 He|ws0 H1];
    subst; destruct (processing_entries _ _ _ H1) as (F1 & F2 & F3 & F4).
  - exists (ws0 ++ [(task_id_of t, task_record "completed" r 100 u)])%list,
      ["completed"].
    split; [done|]. split; [apply Forall_app; by repeat constructor|].
    split; [apply Forall2_app; by repeat constructor|].
    split; [|by auto]. rewrite processing_progress_app, F4. apply app_nil_r.
  - eexists _, ["failed"].
    split; [done|]. split; [apply Forall_app; by repeat constructor|].
    split; [apply Forall2_app; by repeat constructor|].
    split; [|by auto]. rewrite processing_progress_app, F4. apply app_nil_r.
  - exists ws, []. rewrite app_nil_r. by auto 10.
  - exists ws, []. rewrite app_nil_r. by auto 10.
Qed.

(** C2: the writes of one execution of a task function all go to the id of
    its job; their statuses, read after the [pending] the submission wrote,
    never decrease along [pending < processing < {completed, failed}]; and
    a terminal status ([completed] or [failed]) is the last write of the
    execution. *)
Theorem task_statuses_never_go_back (E : externals) (t : task) (w : world) :
  ∃ ws statuses,
    wrote w (run_task E t w).2 ws ∧
    Forall (λ x, x.1 = task_id_of t) ws ∧
    Forall2 (λ x s, status_of x = Some s) ws statuses ∧
    StronglySorted status_le ("pending" :: statuses) ∧
    (∀ i s, statuses !! i = Some s → is_terminal s = true →
            length statuses = S i).
Proof.
  destruct (run_task_statuses E t w) as (ws & ending & Hw & Hid & Hst & _ & He).
  exists ws, (replicate (length (processing_steps t)) "processing" ++ ending)%list.
  do 3 (split; [done|]).
  destruct t; simpl; destruct He as [->|[->| ->]]; simpl;
    (split;
     [ repeat (constructor; unfold status_le; simpl; try lia)
     | intros i s Hi Hs;
       repeat (destruct i as [|i]; simpl in Hi; simplify_eq; try done) ]).
Qed.

(** * Progress *)

Lemma replay_lookup ws ts task_id r :
  replay ws ts !! task_id = Some r →
  ts !! task_id = Some r ∨ (task_id, r) ∈ ws.
Proof.
  revert ts. induction ws as [|[k v] ws IH]; intros ts Hl; simpl in Hl.
  - by left.
  - apply IH in Hl as [Hl|Hl].
    + simpl in Hl. destruct (decide (k = task_id)) as [->|Hne].
      * rewrite lookup_insert_eq in Hl. simplify_eq. right. by left.
      * rewrite lookup_insert_ne in Hl by done. by left.
    + right. by right.
Qed.

Lemma entry_record_ok task_id status progress x :
  entry task_id status progress x →
  (0 ≤ progress ≤ 100)%Z →
  (status = "pending" → progress = 0%Z) →
  (status = "completed" → progress = 100%Z) →
  record_ok x.2.
Proof. intros (r & u & ->) ???. by exists status, progress. Qed.

Lemma processing_entries_ok task_id steps ws :
  Forall2 (entry task_id "processing") steps ws →
  Forall (λ p, 0 ≤ p ≤ 100)%Z steps →
  Forall (λ x, record_ok x.2) ws.
Proof.
  induction 1 as [|p x steps ws Hx _ IH]; intros Hs; [done|].
  apply Forall_cons in Hs as [Hp Hs]. constructor; [|by apply IH].
  by eapply entry_record_ok.
Qed.

Lemma processing_steps_range t :
  Forall (λ p, 0 ≤ p ≤ 100)%Z (processing_steps t).
Proof. destruct t; simpl; repeat constructor; lia. Qed.

Lemma run_task_writes_ok E t w ws :
  wrote w (run_task E t w).2 ws → Forall (λ x, record_ok x.2) ws.
Proof.
  intros Hw. destruct (run_task_shape E t w) as (ws' & Hw' & Hs).
  rewrite (wrote_inj _ _ _ _ Hw Hw').
  pose proof (processing_steps_range t) as Hr.
  inversion Hs as [ws0 x H1 H2|ws0 e u H1 He|ws0 e H1 He|ws0 H1]; subst;
    try (by eapply processing_entries_ok).
  - apply Forall_app. split; [by eapply processing_entries_ok|].
    constructor; [|done]. by eapply entry_record_ok.
  - apply Forall_app. split; [by eapply processing_entries_ok|].
    constructor; [|done].
    eapply entry_record_ok; [apply entry_task_record|done..].
Qed.

(** The one write of a submitting endpoint. *)
Lemma submit_writes E s background_tasks w ws :
  wrote w (submit E s background_tasks w).2 ws →
  ws = [] ∨ ∃ u, ws = [(uuid_source E (uuid_calls w),
                        task_record "pending" PNone 0 u)].
Proof.
  intros Hw.
  destruct (submit_cases E s background_tasks w) as [(t & Ht & Hok)|[e He]].
  - right. rewrite Hok, update_task_status_eq in Hw. eexists.
    eapply wrote_inj; [apply Hw|]. by split.
  - left. rewrite He in Hw. eapply wrote_inj; [apply Hw | by apply wrote_nil].
Qed.

Lemma then_unit_world {A} (m : M A) w : ((m;; mret tt) w).2 = (m w).2.
Proof. unfold mbind, M_bind. by destruct (m w) as [[?|?|] ?]. Qed.

Lemma program_write_ok x : program_write x → record_ok x.2.
Proof.
  intros (E & a & w & ws & Hw & Hx).
  destruct a as [s bts|t|job_id]; unfold perform in Hw.
  - rewrite then_unit_world in Hw.
    apply submit_writes in Hw as [->|[u ->]]; [by apply elem_of_nil in Hx|].
    apply list_elem_of_singleton in Hx as ->.
    eapply entry_record_ok; [apply entry_task_record|done..].
  - apply run_task_writes_ok in Hw. by apply (proj1 (Forall_forall _ _) Hw).
  - rewrite then_unit_world in Hw.
    assert (ws = []) as -> by (eapply wrote_inj; [apply Hw | by apply wrote_nil]).
    by apply elem_of_nil in Hx.
Qed.

(** C3: every record the program writes, and hence every record of the
    registry however the writes of concurrent jobs interleave, has an
    integer progress between 0 and 100, which is 0 when the status is
    [pending] and 100 when it is [completed]; the record a submission
    creates has progress 0; and within one execution of a task function the
    progress values written with status [processing] never decrease. *)
Theorem progress_is_bounded_and_monotone :
  (∀ x, program_write x → record_ok x.2) ∧
  (∀ ws task_id r,
     Forall program_write ws → replay ws ∅ !! task_id = Some r → record_ok r) ∧
  (∀ E s background_tasks w ws,
     wrote w (submit E s background_tasks w).2 ws →
     Forall (λ x, status_of x = Some "pending" ∧ progress_of x = Some 0%Z) ws) ∧
  (∀ E t w ws,
     wrote w (run_task E t w).2 ws →
     StronglySorted Z.le (processing_progress ws)).
Proof.
  split; [apply program_write_ok|]. split; [|split].
  - intros ws task_id r Hws Hl.
    apply replay_lookup in Hl as [Hl|Hl]; [by rewrite lookup_empty in Hl|].
    apply (program_write_ok (task_id, r)).
    by apply (proj1 (Forall_forall _ _) Hws).
  - intros E s bts w ws Hw.
    apply submit_writes in Hw as [->|[u ->]]; by repeat constructor.
  - intros E t w ws Hw.
    destruct (run_task_statuses E t w) as (ws' & ending & Hw' & _ & _ & Hp & _).
    rewrite (wrote_inj _ _ _ _ Hw Hw'), Hp.
    destruct t; simpl; repeat constructor; lia.
Qed.

(** * The montage timeline *)

Lemma unit_interval k p :
  (0 ≤ k < p)%Z →
  (0 <= inject_Z k / inject_Z p)%Q ∧ (inject_Z k / inject_Z p < 1)%Q.
Proof.
  intros [H1 H2].
  assert (Hp : (0 < inject_Z p)%Q).
  { change 0%Q with (inject_Z 0). rewrite <- Zlt_Qlt. lia. }
  split.
  - apply Qle_shift_div_l; [done|]. rewrite Qmult_0_l.
    change 0%Q with (inject_Z 0). rewrite <- Zle_Qle. lia.
  - apply Qlt_shift_div_r; [done|]. rewrite Qmult_1_l, <- Zlt_Qlt. lia.
Qed.

Lemma Qceiling_minus_1 x : (Qceiling (x - 1) < Qceiling x)%Z.
Proof.
  pose proof (Qceiling_lt (x - 1)) as H. pose proof (Qle_ceiling x).
  rewrite Zlt_Qlt.
  unfold Z.sub in H. rewrite inject_Z_plus, inject_Z_opp in H.
  change (inject_Z 1) with 1%Q in H. lra.
Qed.

Lemma Qceiling_pos x : (0 < x)%Q → (0 < Qceiling x)%Z.
Proof.
  intros. pose proof (Qle_ceiling x). rewrite Zlt_Qlt.
  change (inject_Z 0) with 0%Q. lra.
Qed.

Section Timeline.
Context (E : externals).

Lemma random_randint_eq a b w :
  (a ≤ b)%Z →
  random_randint E a b w =
  (Returns (a + (random_source E (random_calls w) `mod` 2 ^ 53)
                `mod` (b - a + 1))%Z, drawn w).
Proof. intros Hab. unfold random_randint. by rewrite decide_False by lia. Qed.

Lemma random_randint_range a b w x w' :
  random_randint E a b w = (Returns x, w') → (a ≤ x ≤ b)%Z.
Proof.
  unfold random_randint. destruct (decide (b < a)%Z) as [|Hab]; [done|].
  intros [= <- _].
  pose proof (Z.mod_pos_bound (random_source E (random_calls w) `mod` 2 ^ 53)
                (b - a + 1)). lia.
Qed.

Lemma random_uniform_range a b w :
  (a <= b)%Q →
  ∃ x, random_uniform E a b w = (Returns x, drawn w) ∧ (a <= x)%Q ∧ (x <= b)%Q.
Proof.
  intros Hab. eexists. split; [reflexivity|].
  destruct (unit_interval (random_source E (random_calls w) `mod` 2 ^ 53)
              (2 ^ 53)) as [H0 H1].
  { apply Z.mod_pos_bound. lia. }
  split; nra.
Qed.

Lemma montage_loop_timeline fuel cut_duration cam_count total_duration :
  (2 ≤ cut_duration)%Z → (0 < cam_count)%Z →
  ∀ current_time clips w,
    (Z.to_nat (Qceiling (total_duration - num_val current_time)) < fuel)%nat →
    ∃ new w',
      montage_loop E fuel cut_duration cam_count total_duration current_time
        clips w = (Returns (clips ++ new), w') ∧
      timeline cut_duration cam_count total_duration (num_val current_time) new.
Proof.
  intros Hcut Hcam. induction fuel as [|fuel IH]; intros cur clips w Hfuel;
    [lia|].
  simpl. destruct (Qlt_le_dec (num_val cur) total_duration) as [Hlt|Hge].
  2: { exists [], w. rewrite app_nil_r. split; [done|]. by apply timeline_end. }
  assert (Hband : (inject_Z (cut_duration - 1) <= inject_Z (cut_duration + 2))%Q).
  { rewrite <- Zle_Qle. lia. }
  assert (Hone : (1 <= inject_Z (cut_duration - 1))%Q).
  { change 1%Q with (inject_Z 1). rewrite <- Zle_Qle. lia. }
  pose proof (random_randint_eq 0 (cam_count - 1) w ltac:(lia)) as Hidx.
  pose proof (random_randint_range _ _ _ _ _ Hidx) as Hidx_range.
  revert Hidx Hidx_range. generalize
    (0 + (random_source E (random_calls w) `mod` 2 ^ 53)
           `mod` (cam_count - 1 - 0 + 1))%Z.
  intros idx Hidx Hidx_range.
  erewrite bind_Returns by apply Hidx.
  destruct (random_uniform_range (inject_Z (cut_duration - 1))
              (inject_Z (cut_duration + 2)) (drawn w) Hband)
    as (x & Hx & Hx1 & Hx2).
  erewrite bind_Returns by apply Hx.
  pose proof (Qceiling_pos (total_duration - num_val cur) ltac:(lra)) as Hpos.
  destruct (Qlt_le_dec total_duration (num_val cur + x)) as [Hover|Hfits].
  - (* the cut is clamped to the end of the audio *)
    edestruct (IH (Float (num_val cur + (total_duration - num_val cur)))
                 (clips ++ [Clip idx cur (total_duration - num_val cur)]))
      as (new & w' & Hrun & Hnew).
    { simpl.
      rewrite (Qceiling_comp
                 (total_duration - (num_val cur + (total_duration - num_val cur)))
                 0) by ring.
      change (Qceiling 0) with 0%Z. lia. }
    simpl in Hnew. inversion Hnew as [c Hc|c y rest Hc|c y Hc]; subst;
      try (exfalso; lra).
    eexists [_], w'. rewrite Hrun, <- app_assoc. split; [done|].
    apply timeline_clamped; simpl; try done; try lia. lra.
  - (* a full cut *)
    edestruct (IH (Float (num_val cur + x)) (clips ++ [Clip idx cur x]))
      as (new & w' & Hrun & Hnew).
    { simpl.
      pose proof (Qceiling_resp_le (total_duration - (num_val cur + x))
                    (total_duration - num_val cur - 1) ltac:(lra)).
      pose proof (Qceiling_minus_1 (total_duration - num_val cur)). lia. }
    eexists (_ :: new), w'. rewrite Hrun, <- app_assoc. split; [done|].
    apply timeline_cut; simpl; try done; lia.
Qed.

End Timeline.

Section TimelineFacts.
Context (cut_duration cam_count : Z) (total_duration : Q).
Context (Hcut : (2 ≤ cut_duration)%Z).

Notation timeline_from := (timeline cut_duration cam_count total_duration).

Lemma timeline_covered c clips :
  timeline_from c clips → (c <= total_duration)%Q →
  (covered clips == total_duration - c)%Q.
Proof.
  induction 1 as [c Hc|c x rest Hc Ho Hi Hlo Hhi Hfit _ IH|c x Hc Ho Hi Hd Hlt];
    intros Hle; simpl.
  - lra.
  - rewrite IH by done. ring.
  - rewrite Hd. ring.
Qed.

Lemma timeline_offsets c clips i x :
  timeline_from c clips → clips !! i = Some x →
  (num_val (offset x) == c + covered (take i clips))%Q.
Proof.
  intros Ht. revert i.
  induction Ht as [c Hc|c y rest Hc Ho Hi Hlo Hhi Hfit _ IH|c y Hc Ho Hi Hd Hlt];
    intros i Hx.
  - done.
  - destruct i as [|i]; simpl in *.
    + simplify_eq. ring.
    + rewrite (IH i Hx). ring.
  - destruct i as [|i]; simpl in *; [|done].
    simplify_eq. ring.
Qed.

Lemma timeline_band c clips i x :
  timeline_from c clips → clips !! i = Some x → S i < length clips →
  (inject_Z (cut_duration - 1) <= duration x)%Q ∧
  (duration x <= inject_Z (cut_duration + 2))%Q.
Proof.
  intros Ht. revert i.
  induction Ht as [c Hc|c y rest Hc Ho Hi Hlo Hhi Hfit _ IH|c y Hc Ho Hi Hd Hlt];
    intros i Hx Hlen.
  - done.
  - destruct i as [|i]; simpl in *.
    + by simplify_eq.
    + apply (IH i Hx). lia.
  - simpl in Hlen. lia.
Qed.

Lemma timeline_last c clips x :
  timeline_from c clips → last clips = Some x →
  (0 < duration x)%Q ∧ (duration x <= inject_Z (cut_duration + 2))%Q.
Proof.
  assert (Hone : (1 <= inject_Z (cut_duration - 1))%Q).
  { change 1%Q with (inject_Z 1). rewrite <- Zle_Qle. lia. }
  induction 1 as [c Hc|c y rest Hc Ho Hi Hlo Hhi Hfit Hr IH|c y Hc Ho Hi Hd Hlt];
    intros Hx.
  - done.
  - destruct rest as [|z rest].
    + simpl in Hx. simplify_eq. split; [lra|done].
    + apply IH. by rewrite last_cons_cons in Hx.
  - simpl in Hx. simplify_eq. rewrite Hd. split; lra.
Qed.

Lemma timeline_cameras c clips :
  timeline_from c clips →
  Forall (λ x, (0 ≤ cam_idx x < cam_count)%Z) clips.
Proof. induction 1; repeat (constructor; try done). Qed.

Lemma timeline_nonempty c clips :
  timeline_from c clips → (c < total_duration)%Q → clips ≠ [].
Proof. destruct 1; [lra|done..]. Qed.

End TimelineFacts.

Section Montage.
Context (E : externals).

(** The loop over [enumerate(video_paths)] on a list of strings. *)
Lemma assets_of_strings (step : string → nat * pyobj → M string) xs acc w :
  (∀ acc iv s, iv.2 = PStr s → ∃ acc', ∀ w, step acc iv w = (Returns acc', w)) →
  Forall (λ iv : nat * pyobj, ∃ s, iv.2 = PStr s) xs →
  ∃ assets_str, for_each step xs acc w = (Returns assets_str, w).
Proof.
  intros Hstep Hxs. revert acc.
  induction Hxs as [|iv xs [s Hs] _ IH]; intros acc; simpl.
  - by eexists.
  - destruct (Hstep acc iv s Hs) as [acc' Hacc].
    erewrite bind_Returns by apply Hacc. apply IH.
Qed.

Lemma enumerate_strings (paths : list string) :
  Forall (λ iv : nat * pyobj, ∃ s, iv.2 = PStr s)
    (imap (λ i v, (i, v)) (PStr <$> paths)).
Proof.
  apply Forall_forall. intros [i v] Hin.
  apply list_elem_of_lookup in Hin. destruct Hin as [j Hj].
  rewrite list_lookup_imap in Hj.
  destruct ((PStr <$> paths) !! j) as [v'|] eqn:Hv; simplify_eq/=.
  rewrite list_lookup_fmap in Hv.
  destruct (paths !! _) as [s|]; simplify_eq/=. by exists s.
Qed.

(** [generate_premiere_xml] is its parts put together. *)
Lemma generate_premiere_xml_of_parts audio_path video_paths style d w
    xml_header clips xml_footer w' :
  generate_premiere_xml_parts E audio_path video_paths style d w =
    (Returns (xml_header, clips, xml_footer), w') →
  generate_premiere_xml E audio_path video_paths style d w =
    (Returns (xml_header +:+
              foldl (λ clips_xml c, clips_xml +:+ render_clip E c) "" clips +:+
              xml_footer), w').
Proof.
  intros Hparts. unfold generate_premiere_xml.
  by erewrite bind_Returns by apply Hparts.
Qed.

(** [generate_premiere_xml] on a non-empty list of paths. *)
Lemma generate_premiere_xml_parts_on_paths audio_path paths style d w :
  paths ≠ [] →
  ∃ xml_header clips xml_footer w',
    generate_premiere_xml_parts E audio_path (PList (PStr <$> paths)) style d w =
      (Returns (xml_header, clips, xml_footer), w') ∧
    timeline (cut_duration_of style) (Z.of_nat (length paths)) d 0%Q clips.
Proof.
  intros Hne. unfold generate_premiere_xml_parts. cbv zeta.
  erewrite bind_Returns by reflexivity.
  match goal with
  | |- context [for_each ?step ?xs ?acc] =>
      destruct (assets_of_strings step xs acc w) as [assets_str Hassets]
  end.
  { intros acc iv s Hs. rewrite Hs. eexists. intros w0. reflexivity. }
  { apply enumerate_strings. }
  erewrite bind_Returns by apply Hassets.
  erewrite bind_Returns by reflexivity.
  assert (Hcut : (2 ≤ cut_duration_of style)%Z).
  { unfold cut_duration_of. destruct (String.eqb style "internal"); lia. }
  assert (Hcam : (0 < Z.of_nat (length (PStr <$> paths)))%Z).
  { rewrite length_fmap. destruct paths; [done|simpl; lia]. }
  assert (Hfuel : Z.to_nat (Qceiling (d - num_val (Int 0))) < montage_fuel d).
  { unfold montage_fuel.
    rewrite (Qceiling_comp (d - num_val (Int 0)) d) by (simpl; ring). lia. }
  destruct (montage_loop_timeline E (montage_fuel d) (cut_duration_of style)
              (Z.of_nat (length (PStr <$> paths))) d Hcut Hcam (Int 0) [] w
              Hfuel)
    as (clips & w' & Hloop & Htl).
  unfold cut_duration_of in Hloop.
  erewrite bind_Returns by apply Hloop.
  rewrite length_fmap in Htl.
  eexists _, clips, _, w'. split; [reflexivity|exact Htl].
Qed.

End Montage.




(** * Probing the duration of the audio *)

Section Probe.
Context (E : externals).

Lemma get_audio_duration_cases path w :
  get_audio_duration E path w =
  (Returns
     match subprocess_run E (ffprobe_command path) with
     | inl _ => 300%Q
     | inr stdout =>
         match float_of_str E (str_strip E stdout) with
         | inl _ => 300%Q
         | inr d => d
         end
     end, w).
Proof.
  unfold get_audio_duration, try_except_all, ffprobe_command.
  unfold mbind, M_bind.
  destruct (subprocess_run E _) as [e|stdout]; simpl; [done|].
  by destruct (float_of_str E _) as [e|d].
Qed.

Lemma get_audio_duration_any_world path w d w0 :
  get_audio_duration E path w = (Returns d, w) →
  get_audio_duration E path w0 = (Returns d, w0).
Proof.
  rewrite !get_audio_duration_cases. by intros [= ->].
Qed.

Lemma get_audio_duration_fallback path w :
  probe_fails E path → get_audio_duration E path w = (Returns 300%Q, w).
Proof.
  rewrite get_audio_duration_cases.
  by intros [[e ->]|(stdout & e & -> & ->)].
Qed.

(** The montage task once the duration is known and the timeline can be
    built and written. *)
Lemma run_montage_task_completes task_id audio_path paths lyrics style d w :
  get_audio_duration E audio_path w = (Returns d, w) →
  paths ≠ [] →
  (∀ content, write_text E (montage_xml_path E task_id) content = None) →
  ∃ xml_header clips xml_footer w',
    run_montage_task E task_id audio_path (PList (PStr <$> paths)) lyrics style w
      = (Returns tt, w') ∧
    tasks_storage w' !! task_id ≫= dict_get "status" = Some (PStr "completed") ∧
    tasks_storage w' !! task_id ≫= dict_get "progress" = Some (PInt 100) ∧
    files w' !! montage_xml_path E task_id =
      Some (xml_header +:+
            foldl (λ clips_xml c, clips_xml +:+ render_clip E c) "" clips +:+
            xml_footer) ∧
    timeline (cut_duration_of style) (Z.of_nat (length paths)) d 0%Q clips.
Proof.
  intros Hd Hne Hwrite.
  unfold run_montage_task, try_except, run_montage_task_try.
  erewrite bind_Returns by apply update_task_status_eq.
  erewrite bind_Returns by (eapply get_audio_duration_any_world, Hd).
  erewrite bind_Returns by apply update_task_status_eq.
  erewrite bind_Returns by reflexivity.
  erewrite bind_Returns by apply update_task_status_eq.
  match goal with
  | |- context [mbind _ (generate_premiere_xml E _ _ _ _) ?w1] =>
      destruct (generate_premiere_xml_parts_on_paths E audio_path paths style d
                  w1 Hne)
        as (xml_header & clips & xml_footer & w' & Hparts & Htl)
  end.
  apply generate_premiere_xml_of_parts in Hparts.
  erewrite bind_Returns by apply Hparts.
  erewrite bind_Returns.
  2: { unfold write_file. fold (montage_xml_path E task_id).
       by rewrite Hwrite. }
  rewrite update_task_status_eq.
  exists xml_header, clips, xml_footer. eexists. split; [reflexivity|].
  simpl. rewrite lookup_insert_eq. simpl.
  split; [done|]. split; [done|]. split; [|done].
  fold (montage_xml_path E task_id). by rewrite lookup_insert_eq.
Qed.

End Probe.

(** C8: when probing the duration fails (the [ffprobe] subprocess raises,
    or its output cannot be parsed as a number), [get_audio_duration]
    returns the default 300 instead of raising, and the montage job goes on
    with it: for a non-empty list of camera paths and a disk that accepts
    the output file, the task returns with status [completed], and the
    file it wrote holds a timeline that covers 300 time units. *)
Theorem probe_failure_falls_back_to_300 (E : externals) (audio_path : string)
    (w : world) :
  probe_fails E audio_path →
  get_audio_duration E audio_path w = (Returns 300%Q, w) ∧
  ∀ task_id paths lyrics style,
    paths ≠ [] →
    (∀ content, write_text E (montage_xml_path E task_id) content = None) →
    ∃ xml_header clips xml_footer w',
      run_montage_task E task_id audio_path (PList (PStr <$> paths)) lyrics
        style w = (Returns tt, w') ∧
      tasks_storage w' !! task_id ≫= dict_get "status" =
        Some (PStr "completed") ∧
      files w' !! montage_xml_path E task_id =
        Some (xml_header +:+
              foldl (λ clips_xml c, clips_xml +:+ render_clip E c) "" clips +:+
              xml_footer) ∧
      (covered clips == 300)%Q.
Proof.
  intros Hfail. split; [by apply get_audio_duration_fallback|].
  intros task_id paths lyrics style Hne Hwrite.
  destruct (run_montage_task_completes E task_id audio_path paths lyrics style
              300%Q w (get_audio_duration_fallback E audio_path w Hfail)
              Hne Hwrite)
    as (xml_header & clips & xml_footer & w' & Hrun & Hst & _ & Hfile & Htl).
  exists xml_header, clips, xml_footer, w'. do 3 (split; [done|]).
  rewrite (timeline_covered _ _ _ _ _ Htl) by lra. ring.
Qed.

Lemma probe_failure_falls_back_to_300_witness :
  get_audio_duration sample_host "audio.mp3" initial_world =
    (Returns 300%Q, initial_world) ∧
  ∃ xml_header clips xml_footer w',
    run_montage_task sample_host "job" "audio.mp3" (PList [PStr "cam1.mp4"]) ""
      "internal" initial_world = (Returns tt, w') ∧
    files w' !! "/app/server/data/outputs/montage_job.xml" =
      Some (xml_header +:+
            foldl (λ clips_xml c, clips_xml +:+ render_clip sample_host c) ""
              clips +:+
            xml_footer) ∧
    (covered clips == 300)%Q.
Proof.
  destruct (probe_failure_falls_back_to_300 sample_host "audio.mp3"
              initial_world) as [Hprobe Hrun].
  - left. eexists. reflexivity.
  - split; [exact Hprobe|].
    destruct (Hrun "job" ["cam1.mp4"] "" "internal")
      as (h & clips & f & w' & H1 & _ & H2 & H3).
    + discriminate.
    + intros content. reflexivity.
    + exists h, clips, f, w'. split; [exact H1|]. split; [exact H2 | exact H3].
Defined.

(** * A montage without cameras *)

(** On an empty list of cameras the first round of the loop raises. *)
Lemma generate_premiere_xml_no_camera E audio_path style d w :
  (0 < d)%Q →
  ∃ msg, generate_premiere_xml E audio_path (PList []) style d w =
           (Raises (ValueError msg), w).
Proof.
  intros Hd. eexists.
  unfold generate_premiere_xml, generate_premiere_xml_parts. cbv zeta.
  erewrite bind_Raises; [reflexivity|].
  erewrite bind_Returns by reflexivity.
  erewrite bind_Returns by reflexivity.
  erewrite bind_Returns by reflexivity.
  erewrite bind_Raises; [reflexivity|].
  unfold montage_fuel. simpl montage_loop.
  destruct (Qlt_le_dec (inject_Z 0) d) as [_|Hle];
    [|change (inject_Z 0) with 0%Q in Hle; lra].
  by erewrite bind_Raises by reflexivity.
Qed.

(** C10 (amended): for a montage submission whose [video_paths] decodes to
    the empty list and whose audio has a positive duration (probed, or the
    default 300 when probing fails), the endpoint registers the task, and
    the task, whenever it runs, returns with a terminal record of status
    [failed] that carries an error payload; none of its writes has status
    [completed]. *)
Theorem montage_without_cameras_fails (E : externals)
    (audio_path video_paths lyrics style : string) (d : Q) (w : world) :
  json_loads E video_paths = inr (PList []) →
  get_audio_duration E audio_path w = (Returns d, w) →
  (0 < d)%Q →
  ∃ job_id w1,
    start_montage E [] audio_path video_paths lyrics style w =
      (Returns ([("job_id", PStr job_id)],
                [MontageTask job_id audio_path (PList []) lyrics style]), w1) ∧
    ∀ w1', ∃ w2 msg updated_at ws,
      run_task E (MontageTask job_id audio_path (PList []) lyrics style) w1' =
        (Returns tt, w2) ∧
      tasks_storage w2 !! job_id =
        Some [("status", PStr "failed");
              ("result", PDict [("error", PStr msg)]);
              ("progress", PInt 0);
              ("updated_at", PStr updated_at)] ∧
      wrote w1' w2 ws ∧
      Forall (λ x, status_of x ≠ Some "completed") ws.
Proof.
  intros Hjson Hd Hpos. eexists _, _. split.
  { unfold start_montage. rewrite Hjson.
    erewrite bind_Returns by reflexivity.
    erewrite bind_Returns by reflexivity.
    erewrite bind_Returns by apply update_task_status_eq. reflexivity. }
  intros w1'. simpl run_task.
  unfold run_montage_task, try_except, run_montage_task_try.
  erewrite bind_Returns by apply update_task_status_eq.
  erewrite bind_Returns by (eapply get_audio_duration_any_world, Hd).
  erewrite bind_Returns by apply update_task_status_eq.
  erewrite bind_Returns by reflexivity.
  erewrite bind_Returns by apply update_task_status_eq.
  match goal with
  | |- context [mbind _ (generate_premiere_xml E _ _ _ _) ?w3] =>
      destruct (generate_premiere_xml_no_camera E audio_path style d w3 Hpos)
        as [msg Hxml]
  end.
  erewrite bind_Raises by apply Hxml. simpl is_Exception. cbv iota.
  rewrite update_task_status_eq.
  eexists _, msg, _, [_; _; _; _]. split; [reflexivity|]. simpl.
  split; [apply lookup_insert_eq|]. split; [by split|].
  repeat constructor; discriminate.
Qed.

Lemma montage_without_cameras_fails_witness :
  ∃ w2 msg updated_at,
    run_task sample_host (MontageTask "uuid0" "audio.mp3" (PList []) "" "internal")
      initial_world = (Returns tt, w2) ∧
    tasks_storage w2 !! "uuid0" =
      Some [("status", PStr "failed");
            ("result", PDict [("error", PStr msg)]);
            ("progress", PInt 0);
            ("updated_at", PStr updated_at)].
Proof.
  destruct (montage_without_cameras_fails sample_host "audio.mp3" "[]" ""
              "internal" 300%Q initial_world)
    as (job_id & w1 & Hstart & Hrun).
  - reflexivity.
  - reflexivity.
  - reflexivity.
  - injection Hstart as <- _.
    destruct (Hrun initial_world) as (w2 & msg & u & ws & H1 & H2 & _).
    exists w2, msg, u. split; [exact H1 | exact H2].
Defined.

(** C10 as stated fails: when [ffprobe] reports a duration of zero the
    loop of [generate_premiere_xml] never runs, no camera is drawn, and the
    montage job with an empty list of cameras ends [completed]. *)
Lemma montage_without_cameras_counterexample :
  let start :=
    start_montage sample_host [] "silence.mp3" "[]" "" "internal"
      initial_world in
  let t := MontageTask "uuid0" "silence.mp3" (PList []) "" "internal" in
  json_loads sample_host "[]" = inr (PList []) ∧
  start.1 = Returns ([("job_id", PStr "uuid0")], [t]) ∧
  (run_task sample_host t start.2).1 = Returns tt ∧
  tasks_storage (run_task sample_host t start.2).2 !! "uuid0"
    ≫= dict_get "status" = Some (PStr "completed").
Proof.
  simpl. split; [reflexivity|]. split; [vm_compute; reflexivity|].
  split; vm_compute; reflexivity.
Qed.

(** * Termination: the fuel of the loop is never exhausted *)

Create HintDb terminates discriminated.

Lemma terminates_ret {A} (a : A) : terminates (mret a).
Proof. by intros w. Qed.

Lemma terminates_raise {A} e : terminates (@raise A e).
Proof. by intros w. Qed.

Lemma terminates_call {A} (r : exn + A) : terminates (call r).
Proof. by destruct r. Qed.

Lemma terminates_bind {A B} (m : M A) (f : A → M B) :
  terminates m → (∀ a, terminates (f a)) → terminates (m ≫= f).
Proof.
  intros Hm Hf w. specialize (Hm w). unfold mbind, M_bind.
  destruct (m w) as [[a|e|] w1]; [apply Hf|done..].
Qed.

Lemma terminates_try_except {A} (body : M A) handler :
  terminates body → (∀ e, terminates (handler e)) →
  terminates (try_except body handler).
Proof.
  intros Hb Hh w. specialize (Hb w). unfold try_except.
  destruct (body w) as [[a|e|] w1]; [done| |done].
  destruct (is_Exception e); [apply Hh|done].
Qed.

Lemma terminates_try_except_all {A} (body handler : M A) :
  terminates body → terminates handler →
  terminates (try_except_all body handler).
Proof.
  intros Hb Hh w. specialize (Hb w). unfold try_except_all.
  destruct (body w) as [[a|e|] w1]; [done|apply Hh|done].
Qed.

Lemma terminates_for_each {A B} (step : B → A → M B) xs acc :
  (∀ acc x, terminates (step acc x)) → terminates (for_each step xs acc).
Proof.
  intros Hs. revert acc. induction xs as [|x xs IH]; intros acc; simpl.
  - apply terminates_ret.
  - apply terminates_bind; [apply Hs | apply IH].
Qed.

Ltac terminates :=
  repeat first
    [ progress intros
    | solve [auto with terminates]
    | apply terminates_ret | apply terminates_raise | apply terminates_call
    | apply terminates_bind | apply terminates_try_except
    | apply terminates_try_except_all | apply terminates_for_each
    | match goal with
      | |- terminates (if ?b then _ else _) => destruct b
      | |- terminates (match ?x with _ => _ end) => destruct x
      | |- terminates (let _ := _ in _) => cbv zeta
      end
    | solve [eauto with terminates] ].

Section Termination.
Context (E : externals).

Lemma terminates_uuid4_hex : terminates (uuid4_hex E).
Proof. by intros w. Qed.

Lemma terminates_update_task_status task_id status result progress :
  terminates (update_task_status E task_id status result progress).
Proof. intros w. by rewrite update_task_status_eq. Qed.

Lemma terminates_write_file path content :
  terminates (write_file E path content).
Proof. intros w. unfold write_file. by destruct (write_text E path content). Qed.

Lemma terminates_random_draw : terminates (random_draw E).
Proof. by intros w. Qed.

Hint Resolve terminates_uuid4_hex terminates_update_task_status
  terminates_write_file terminates_random_draw : terminates.

Lemma terminates_ensure_ffmpeg : terminates (ensure_ffmpeg E).
Proof. unfold ensure_ffmpeg. terminates. Qed.

Hint Resolve terminates_ensure_ffmpeg : terminates.

Lemma terminates_get_audio_duration path :
  terminates (get_audio_duration E path).
Proof. intros w. by rewrite get_audio_duration_cases. Qed.

Lemma terminates_mix_audio_aza vocal_path slap_path output_path :
  terminates (mix_audio_aza E vocal_path slap_path output_path).
Proof. unfold mix_audio_aza. terminates. Qed.

Lemma terminates_generate_srt_via_ai audio_path lyrics :
  terminates (generate_srt_via_ai E audio_path lyrics).
Proof. unfold generate_srt_via_ai. terminates. Qed.

(** The loop ends within its fuel, with or without cameras. *)
Lemma terminates_montage_loop style cam_count d :
  terminates (montage_loop E (montage_fuel d) (cut_duration_of style)
                cam_count d (Int 0) []).
Proof.
  intros w.
  assert (Hcut : (2 ≤ cut_duration_of style)%Z).
  { unfold cut_duration_of. destruct (String.eqb style "internal"); lia. }
  assert (Hfuel : Z.to_nat (Qceiling (d - num_val (Int 0))) < montage_fuel d).
  { unfold montage_fuel.
    rewrite (Qceiling_comp (d - num_val (Int 0)) d) by (simpl; ring). lia. }
  destruct (decide (0 < cam_count)%Z) as [Hcam|Hcam].
  - destruct (montage_loop_timeline E (montage_fuel d) (cut_duration_of style)
                cam_count d Hcut Hcam (Int 0) [] w Hfuel)
      as (clips & w' & -> & _). done.
  - unfold montage_fuel. simpl montage_loop.
    destruct (Qlt_le_dec (inject_Z 0) d); [|done].
    unfold random_randint. rewrite decide_True by lia.
    by erewrite bind_Raises by reflexivity.
Qed.

Lemma terminates_generate_premiere_xml audio_path video_paths style d :
  terminates (generate_premiere_xml E audio_path video_paths style d).
Proof.
  unfold generate_premiere_xml, generate_premiere_xml_parts. cbv zeta.
  apply terminates_bind; [|terminates].
  apply terminates_bind; [terminates|intros vs].
  apply terminates_bind; [terminates|intros assets_str].
  apply terminates_bind; [terminates|intros cam_count].
  apply terminates_bind; [|terminates].
  apply terminates_montage_loop.
Qed.

Hint Resolve terminates_get_audio_duration terminates_mix_audio_aza
  terminates_generate_srt_via_ai terminates_generate_premiere_xml : terminates.

(** Every execution of a task function comes to an end. *)
Lemma run_task_terminates t : terminates (run_task E t).
Proof.
  destruct t; simpl;
    unfold run_mix_task, run_mix_task_try, run_srt_sync_task,
      run_srt_sync_task_try, run_montage_task, run_montage_task_try,
      run_image_gen_task, run_image_gen_task_try, time_sleep;
    terminates.
Qed.

End Termination.

(** * Further properties of the registry *)

(** X1: what [update_task_status] writes under an id is what
    [get_task_status] then returns for it, with the marker drawn from
    [uuid4]; the answer for every other id is what it was before. *)
Theorem update_then_get (E : externals) (task_id status : string)
    (result : pyobj) (progress : Z) (w : world) :
  let w' := (update_task_status E task_id status result progress w).2 in
  get_task_status task_id w' =
    (Returns [("status", PStr status); ("result", result);
              ("progress", PInt progress);
              ("updated_at", PStr (uuid_source E (uuid_calls w)))], w') ∧
  ∀ other, other ≠ task_id →
    (get_task_status other w').1 = (get_task_status other w).1.
Proof.
  rewrite update_task_status_eq. simpl. unfold get_task_status. simpl. split.
  - by rewrite lookup_insert_eq.
  - intros other Hne. by rewrite lookup_insert_ne.
Qed.

(** * Further properties of the processing functions *)

Lemma ensure_ffmpeg_cases E w :
  ensure_ffmpeg E w =
  (match subprocess_run E ffmpeg_version_command with
   | inr _ => Returns tt
   | inl e =>
       if is_Exception e
       then Raises (HTTPException 500 "FFmpeg is not installed on the server.")
       else Raises e
   end, w).
Proof.
  unfold ensure_ffmpeg, try_except, ffmpeg_version_command.
  unfold mbind, M_bind.
  destruct (subprocess_run E _) as [e|stdout]; simpl; [|done].
  by destruct (is_Exception e).
Qed.

Lemma mix_audio_aza_cases E vocal_path slap_path output_path w :
  mix_audio_aza E vocal_path slap_path output_path w =
  (match subprocess_run E ffmpeg_version_command with
   | inr _ =>
       match subprocess_run E (mix_command vocal_path slap_path output_path) with
       | inr _ => Returns tt
       | inl e => Raises e
       end
   | inl e =>
       if is_Exception e
       then Raises (HTTPException 500 "FFmpeg is not installed on the server.")
       else Raises e
   end, w).
Proof.
  unfold mix_audio_aza. unfold mbind at 1. unfold M_bind.
  rewrite ensure_ffmpeg_cases.
  destruct (subprocess_run E ffmpeg_version_command) as [e|stdout].
  { by destruct (is_Exception e). }
  cbv zeta. fold (mix_command vocal_path slap_path output_path).
  unfold mbind, M_bind.
  by destruct (subprocess_run E (mix_command _ _ _)) as [e|out].
Qed.

(** X2: the three ends of a mix job.  When [ffmpeg -version] fails with an
    exception of class [Exception], whatever it is, the job ends [failed]
    and its error is that of the [HTTPException] 500 of [ensure_ffmpeg];
    when the mixing command fails, the job ends [failed] with the text of
    that exception; when both commands succeed the job ends [completed]
    with progress 100 and a result that names [/outputs/mix_<id>.mp3] and
    the output path below the outputs directory.  In each case the task
    function returns. *)
Theorem mix_job_outcome (E : externals) (task_id vocal_path slap_path : string)
    (w : world) :
  let run := run_mix_task E task_id vocal_path slap_path w in
  let final := tasks_storage run.2 !! task_id in
  let mixing :=
    subprocess_run E
      (mix_command vocal_path slap_path (mix_output_path E task_id)) in
  (∀ e, subprocess_run E ffmpeg_version_command = inl e →
        is_Exception e = true →
        run.1 = Returns tt ∧
        final ≫= dict_get "status" = Some (PStr "failed") ∧
        final ≫= dict_get "result" =
          Some (PDict [("error",
                        PStr (str_exn (HTTPException 500
                                "FFmpeg is not installed on the server.")))])) ∧
  (∀ stdout e, subprocess_run E ffmpeg_version_command = inr stdout →
        mixing = inl e → is_Exception e = true →
        run.1 = Returns tt ∧
        final ≫= dict_get "status" = Some (PStr "failed") ∧
        final ≫= dict_get "result" =
          Some (PDict [("error", PStr (str_exn e))])) ∧
  (∀ stdout stdout', subprocess_run E ffmpeg_version_command = inr stdout →
        mixing = inr stdout' →
        run.1 = Returns tt ∧
        final ≫= dict_get "status" = Some (PStr "completed") ∧
        final ≫= dict_get "progress" = Some (PInt 100) ∧
        final ≫= dict_get "result" =
          Some (PDict [("output_url",
                        PStr ("/outputs/mix_" +:+ task_id +:+ ".mp3"));
                       ("file_path", PStr (mix_output_path E task_id))])).
Proof.
  cbv zeta. unfold run_mix_task, try_except, run_mix_task_try.
  erewrite bind_Returns by apply update_task_status_eq.
  fold (mix_output_path E task_id).
  split; [|split].
  - intros e He Hexc.
    erewrite bind_Raises
      by (rewrite mix_audio_aza_cases, He, Hexc; reflexivity).
    simpl. by rewrite lookup_insert_eq.
  - intros stdout e Hv Hm Hexc.
    erewrite bind_Raises by (rewrite mix_audio_aza_cases, Hv, Hm; reflexivity).
    rewrite Hexc, update_task_status_eq. simpl.
    by rewrite lookup_insert_eq.
  - intros stdout stdout' Hv Hm.
    erewrite bind_Returns by (rewrite mix_audio_aza_cases, Hv, Hm; reflexivity).
    rewrite update_task_status_eq. simpl.
    by rewrite lookup_insert_eq.
Qed.

(** X3: [get_audio_duration] always returns and leaves the world as it
    is: it returns 300 when probing fails, for whatever reason, and the
    number [float] reads in the stripped output of [ffprobe] otherwise. *)
Theorem get_audio_duration_always_returns (E : externals) (path : string)
    (w : world) :
  ∃ d, get_audio_duration E path w = (Returns d, w) ∧
       (probe_fails E path → d = 300%Q) ∧
       (∀ stdout x, subprocess_run E (ffprobe_command path) = inr stdout →
                    float_of_str E (str_strip E stdout) = inr x → d = x).
Proof.
  eexists. split; [apply get_audio_duration_cases|]. split.
  - by intros [[e ->]|(stdout & e & -> & ->)].
  - by intros stdout x -> ->.
Qed.

(** ** Subtitles *)

Lemma generate_srt_via_ai_unfold E audio_path lyrics :
  generate_srt_via_ai E audio_path lyrics =
  try_except (generate_srt_via_ai_try E audio_path lyrics)
    (λ e, mret ("ALIGMENT_ERROR: " +:+ str_exn e)).
Proof. reflexivity. Qed.

(** The try suite draws one uuid and changes nothing else. *)
Lemma generate_srt_via_ai_try_world E audio_path lyrics w :
  (generate_srt_via_ai_try E audio_path lyrics w).2 = (uuid4_hex E w).2.
Proof.
  unfold generate_srt_via_ai_try.
  erewrite bind_Returns by reflexivity. cbv zeta.
  unfold mbind at 1. unfold M_bind. rewrite ensure_ffmpeg_cases.
  destruct (subprocess_run E ffmpeg_version_command) as [e|?];
    [by destruct (is_Exception e)|].
  unfold mbind, M_bind, call, raise, mret, M_ret.
  repeat case_match; simplify_eq/=; done.
Qed.

(** X4: [generate_srt_via_ai] turns every failure of class [Exception]
    into text: when its try suite raises such an exception [e] it returns
    ["ALIGMENT_ERROR: " + str(e)]; no exception of class [Exception] ever
    leaves it.  It makes one [uuid4] call and leaves the registry and the
    files alone. *)
Theorem alignment_errors_become_text (E : externals)
    (audio_path lyrics : string) (w : world) :
  let run := generate_srt_via_ai E audio_path lyrics w in
  (∀ e w', generate_srt_via_ai_try E audio_path lyrics w = (Raises e, w') →
           is_Exception e = true →
           run = (Returns ("ALIGMENT_ERROR: " +:+ str_exn e), w')) ∧
  (∀ e, run.1 = Raises e → is_Exception e = false) ∧
  tasks_storage run.2 = tasks_storage w ∧
  files run.2 = files w ∧
  uuid_calls run.2 = S (uuid_calls w).
Proof.
  cbv zeta. rewrite generate_srt_via_ai_unfold. unfold try_except.
  pose proof (generate_srt_via_ai_try_world E audio_path lyrics w) as Hw.
  destruct (generate_srt_via_ai_try E audio_path lyrics w) as [[s|e|] w1];
    simpl in Hw; subst w1.
  - by repeat split.
  - destruct (is_Exception e) eqn:He.
    + split; [by intros e' w' [= <- <-] _|]. by repeat split.
    + split; [intros e' w' [= <- <-]; congruence|].
      split; [by intros e' [= <-]|]. by repeat split.
  - by repeat split.
Qed.

(** The srt job once [generate_srt_via_ai] has returned. *)
Lemma run_srt_sync_task_after_alignment E task_id audio_path lyrics w s w2 :
  generate_srt_via_ai E audio_path lyrics (srt_job_started E task_id w) =
    (Returns s, w2) →
  run_srt_sync_task E task_id audio_path lyrics w =
  match write_text E (srt_output_path E task_id) s with
  | None =>
      update_task_status E task_id "completed"
        (PDict [("output_url", PStr ("/outputs/" +:+ "sync_" +:+ task_id +:+ ".srt"));
                ("file_path", PStr (srt_output_path E task_id));
                ("srt_content", PStr s)]) 100
        (World (tasks_storage w2) (uuid_calls w2) (random_calls w2)
               (<[srt_output_path E task_id := s]> (files w2)) (history w2))
  | Some e =>
      if is_Exception e
      then update_task_status E task_id "failed"
             (PDict [("error", PStr (str_exn e))]) 0 w2
      else (Raises e, w2)
  end.
Proof.
  intros Hgen. unfold run_srt_sync_task, try_except, run_srt_sync_task_try.
  erewrite bind_Returns by apply update_task_status_eq.
  erewrite bind_Returns by apply Hgen.
  cbv zeta. fold (srt_output_path E task_id).
  unfold mbind, M_bind, write_file.
  by destruct (write_text E (srt_output_path E task_id) s).
Qed.

(** X5: an srt job whose alignment fails with an exception [e] of class
    [Exception] does not end [failed]: once the subtitle file is written the
    job ends [completed] with progress 100, and both the [srt_content] of
    its result and the file [sync_<id>.srt] hold the text
    ["ALIGMENT_ERROR: " + str(e)]. *)
Theorem srt_job_completes_on_alignment_error (E : externals)
    (task_id audio_path lyrics : string) (w w2 : world) (e : exn) :
  generate_srt_via_ai_try E audio_path lyrics (srt_job_started E task_id w) =
    (Raises e, w2) →
  is_Exception e = true →
  write_text E (srt_output_path E task_id) ("ALIGMENT_ERROR: " +:+ str_exn e) =
    None →
  let run := run_srt_sync_task E task_id audio_path lyrics w in
  let final := tasks_storage run.2 !! task_id in
  run.1 = Returns tt ∧
  final ≫= dict_get "status" = Some (PStr "completed") ∧
  final ≫= dict_get "progress" = Some (PInt 100) ∧
  (final ≫= dict_get "result") ≫=
    (λ r, match r with PDict d => dict_get "srt_content" d | _ => None end) =
    Some (PStr ("ALIGMENT_ERROR: " +:+ str_exn e)) ∧
  files run.2 !! srt_output_path E task_id =
    Some ("ALIGMENT_ERROR: " +:+ str_exn e).
Proof.
  intros Htry He Hwrite. cbv zeta.
  erewrite run_srt_sync_task_after_alignment.
  2: { rewrite generate_srt_via_ai_unfold. unfold try_except.
       by rewrite Htry, He. }
  rewrite Hwrite, update_task_status_eq. simpl.
  rewrite !lookup_insert_eq. done.
Qed.

Lemma srt_job_completes_on_alignment_error_witness :
  let run := run_srt_sync_task sample_host "job" "audio.mp3" "la la" initial_world in
  run.1 = Returns tt ∧
  tasks_storage run.2 !! "job" ≫= dict_get "status" = Some (PStr "completed") ∧
  files run.2 !! "/app/server/data/outputs/sync_job.srt" =
    Some "ALIGMENT_ERROR: 500: FFmpeg is not installed on the server.".
Proof.
  destruct (srt_job_completes_on_alignment_error sample_host "job" "audio.mp3"
              "la la" initial_world
              (generate_srt_via_ai_try sample_host "audio.mp3" "la la"
                 (srt_job_started sample_host "job" initial_world)).2
              (HTTPException 500 "FFmpeg is not installed on the server."))
    as (H1 & H2 & _ & _ & H3).
  - reflexivity.
  - reflexivity.
  - reflexivity.
  - cbv zeta. split; [exact H1|]. split; [exact H2 | exact H3].
Defined.

(** The first element that [filter] keeps. *)
Lemma first_kept {A} (P : A → Prop) `{∀ x, Decision (P x)} (f : A → string)
    (l : list A) :
  let chosen := match map f (filter P l) with x :: _ => x | [] => "..." end in
  (Forall (λ x, ¬ P x) l ∧ chosen = "...") ∨
  (∃ i x, l !! i = Some x ∧ P x ∧
          (∀ j y, j < i → l !! j = Some y → ¬ P y) ∧ chosen = f x).
Proof.
  induction l as [|x l IH]; simpl.
  - left. by split.
  - rewrite filter_cons. destruct (decide (P x)) as [Hx|Hx]; simpl.
    + right. exists 0, x. split; [done|]. split; [done|]. split; [|done].
      intros j y Hj. lia.
    + destruct IH as [[Hall Hc]|(i & y & Hi & Hy & Hbefore & Hc)].
      * left. split; [by constructor|done].
      * right. exists (S i), y. split; [done|]. split; [done|]. split; [|done].
        intros [|j] z Hj Hz; simpl in Hz; [by simplify_eq|].
        apply (Hbefore j z); [lia|done].
Qed.

(** X6: when every collaborator answers, the subtitles are one cue from
    second 1 to second 10.  If the reply of the transcription service has
    no ["text"] the cue is a fixed message; if it has one, the cue is the
    first line of the lyrics that [strip] does not leave empty, stripped,
    or ["..."] when there is no such line: the transcription itself is not
    used. *)
Theorem srt_cue_is_first_lyric_line (E : externals)
    (audio_path lyrics : string) (w : world)
    (stdout1 stdout2 data : string) (reply : pyobj) (has_text : bool) :
  subprocess_run E ffmpeg_version_command = inr stdout1 →
  subprocess_run E
    (vocal_isolation_command E audio_path (uuid_source E (uuid_calls w))) =
    inr stdout2 →
  read_bytes E audio_path = inr data →
  requests_post_json E whisper_url data = inr reply →
  py_contains "text" reply = inr has_text →
  ∃ text,
    (generate_srt_via_ai E audio_path lyrics w).1 = Returns (srt_cue text) ∧
    if has_text then
      (Forall (blank E) (split_lines lyrics) ∧ text = "...") ∨
      (∃ i line,
         split_lines lyrics !! i = Some line ∧ ¬ blank E line ∧
         (∀ j l, j < i → split_lines lyrics !! j = Some l → blank E l) ∧
         text = str_strip E line)
    else text = "[خطأ في الاتصال بالسحابة - يرجى المحاولة لاحقاً]".
Proof.
  intros Hv Hiso Hread Hpost Htext.
  rewrite generate_srt_via_ai_unfold. unfold try_except, generate_srt_via_ai_try.
  erewrite bind_Returns by reflexivity. cbv zeta.
  erewrite bind_Returns by (rewrite ensure_ffmpeg_cases, Hv; reflexivity).
  fold (vocal_isolation_command E audio_path (uuid_source E (uuid_calls w))).
  fold whisper_url. simpl uuid_calls.
  erewrite bind_Returns by (rewrite Hiso; reflexivity).
  erewrite bind_Returns by (rewrite Hread; reflexivity).
  erewrite bind_Returns by (rewrite Hpost; reflexivity).
  erewrite bind_Returns by (rewrite Htext; reflexivity).
  destruct has_text; simpl.
  - destruct (first_kept (λ l, str_strip E l ≠ "") (str_strip E)
                (split_lines lyrics)) as [[Hall Hc]|(i & x & Hi & Hx & Hb & Hc)].
    + eexists. split; [reflexivity|]. left. split; [|exact Hc].
      eapply Forall_impl; [apply Hall|]. intros l Hl. unfold blank.
      by destruct (decide (str_strip E l = "")).
    + eexists. split; [reflexivity|]. right. exists i, x.
      split; [done|]. split; [done|]. split; [|exact Hc].
      intros j l Hj Hl. specialize (Hb j l Hj Hl). unfold blank.
      by destruct (decide (str_strip E l = "")).
  - eexists. split; [reflexivity|]. done.
Qed.

Lemma srt_cue_is_first_lyric_line_witness :
  ∃ text,
    (generate_srt_via_ai studio_host "audio.mp3"
       (nl +:+ "  first line " +:+ nl +:+ "second line") initial_world).1 =
    Returns (srt_cue text).
Proof.
  destruct (srt_cue_is_first_lyric_line studio_host "audio.mp3"
              (nl +:+ "  first line " +:+ nl +:+ "second line") initial_world
              "" "" "RIFF" (PDict [("text", PStr "la la la")]) true)
    as (text & Hrun & _).
  - reflexivity.
  - reflexivity.
  - reflexivity.
  - reflexivity.
  - reflexivity.
  - exists text. exact Hrun.
Defined.

(** * Further properties of the montage timeline *)

Lemma stateless_ret {A} (a : A) : stateless (mret a).
Proof. by intros w. Qed.

Lemma stateless_call {A} (r : exn + A) : stateless (call r).
Proof. by destruct r. Qed.

Lemma stateless_bind {A B} (m : M A) (f : A → M B) :
  stateless m → (∀ a, stateless (f a)) → stateless (m ≫= f).
Proof.
  intros Hm Hf w. specialize (Hm w). unfold mbind, M_bind.
  destruct (m w) as [[a|e|] w1]; simpl in Hm; subst; [apply Hf|done..].
Qed.

Lemma stateless_for_each {A B} (step : B → A → M B) xs acc :
  (∀ acc x, stateless (step acc x)) → stateless (for_each step xs acc).
Proof.
  intros Hs. revert acc. induction xs as [|x xs IH]; intros acc; simpl.
  - apply stateless_ret.
  - apply stateless_bind; [apply Hs | apply IH].
Qed.

Lemma only_draws_0 w : only_draws 0 w w.
Proof. unfold only_draws. destruct w. simpl. f_equal. lia. Qed.

Lemma only_draws_step n w w' :
  only_draws n (drawn (drawn w)) w' → only_draws (2 + n) w w'.
Proof. unfold only_draws, drawn. simpl. intros ->. f_equal. lia. Qed.

Section Draws.
Context (E : externals).

(** Each round of the loop draws twice and appends one segment. *)
Lemma montage_loop_draws fuel cut_duration cam_count total_duration :
  ∀ current_time clips w out w',
    montage_loop E fuel cut_duration cam_count total_duration current_time
      clips w = (Returns out, w') →
    ∃ new, out = clips ++ new ∧ only_draws (2 * length new) w w'.
Proof.
  induction fuel as [|fuel IH]; intros cur clips w out w'; simpl;
    destruct (Qlt_le_dec (num_val cur) total_duration) as [Hlt|Hge];
    try done.
  - intros [= <- <-]. exists []. rewrite app_nil_r. split; [done|].
    apply only_draws_0.
  - unfold random_randint.
    destruct (decide (cam_count - 1 < 0)%Z) as [Hneg|Hpos].
    { by erewrite bind_Raises by reflexivity. }
    erewrite bind_Returns by reflexivity.
    erewrite bind_Returns by reflexivity.
    intros Hrun. apply IH in Hrun as (new & -> & Hdraws).
    eexists (_ :: new). rewrite <- app_assoc. split; [reflexivity|].
    unfold only_draws in *. subst w'. simpl. f_equal. lia.
  - intros [= <- <-]. exists []. rewrite app_nil_r. split; [done|].
    apply only_draws_0.
Qed.


End Draws.


Section EmptyTimeline.
Context (E : externals).

(** X8: for an audio duration that is zero or negative the loop of
    [generate_premiere_xml] never runs: on every list of camera paths, the
    empty one included, the function returns a project whose spine has no
    segment, and the generator of [random] is not touched. *)
Theorem montage_of_no_duration_is_empty (audio_path : string)
    (paths : list string) (style : string) (d : Q) (w : world) :
  (d <= 0)%Q →
  ∃ xml_header xml_footer,
    generate_premiere_xml_parts E audio_path (PList (PStr <$> paths)) style d w =
      (Returns (xml_header, [], xml_footer), w) ∧
    generate_premiere_xml E audio_path (PList (PStr <$> paths)) style d w =
      (Returns (xml_header +:+ xml_footer), w).
Proof.
  intros Hd.
  assert (∃ xml_header xml_footer,
    generate_premiere_xml_parts E audio_path (PList (PStr <$> paths)) style d w =
      (Returns (xml_header, [], xml_footer), w)) as (h & f & Hparts).
  { unfold generate_premiere_xml_parts. cbv zeta.
    erewrite bind_Returns by reflexivity.
    match goal with
    | |- context [for_each ?step ?xs ?acc] =>
        destruct (assets_of_strings step xs acc w) as [assets_str Hassets]
    end.
    { intros acc iv s Hs. rewrite Hs. eexists. intros w0. reflexivity. }
    { apply enumerate_strings. }
    erewrite bind_Returns by apply Hassets.
    erewrite bind_Returns by reflexivity.
    erewrite bind_Returns.
    2: { unfold montage_fuel. simpl montage_loop.
         destruct (Qlt_le_dec (inject_Z 0) d) as [Hlt|_]; [|reflexivity].
         exfalso. change (inject_Z 0) with 0%Q in Hlt. lra. }
    by eexists _, _. }
  exists h, f. split; [done|].
  by rewrite (generate_premiere_xml_of_parts E _ _ _ _ _ _ _ _ _ Hparts).
Qed.

End EmptyTimeline.

Lemma montage_of_no_duration_is_empty_witness :
  ∃ xml_header xml_footer,
    generate_premiere_xml_parts sample_host "silence.mp3" (PList []) "internal"
      0%Q initial_world =
    (Returns (xml_header, [], xml_footer), initial_world).
Proof.
  destruct (montage_of_no_duration_is_empty sample_host "silence.mp3" []
              "internal" 0%Q initial_world) as (h & f & Hparts & _).
  - discriminate.
  - exists h, f. exact Hparts.
Defined.

(** The number of segments of a timeline against the length it covers. *)
Lemma timeline_count cut_duration cam_count total_duration c clips :
  (2 ≤ cut_duration)%Z →
  timeline cut_duration cam_count total_duration c clips →
  (c <= total_duration)%Q →
  (total_duration - c <=
     inject_Z (Z.of_nat (length clips)) * inject_Z (cut_duration + 2))%Q ∧
  (clips ≠ [] →
   (inject_Z (Z.of_nat (length clips)) - 1) * inject_Z (cut_duration - 1) <
     total_duration - c)%Q.
Proof.
  intros Hcut.
  assert (Hone : (1 <= inject_Z (cut_duration - 1))%Q).
  { change 1%Q with (inject_Z 1). rewrite <- Zle_Qle. lia. }
  assert (Htop : (0 <= inject_Z (cut_duration + 2))%Q).
  { change 0%Q with (inject_Z 0). rewrite <- Zle_Qle. lia. }
  induction 1 as [c Hc|c x rest Hc Ho Hi Hlo Hhi Hfit Hr IH|c x Hc Ho Hi Hd Hlt];
    intros Hle.
  - change (inject_Z (Z.of_nat (length (@nil clip)))) with 0%Q.
    split; [lra|done].
  - destruct (IH Hfit) as [IH1 IH2].
    change (length (x :: rest)) with (S (length rest)).
    rewrite Nat2Z.inj_succ. unfold Z.succ. rewrite inject_Z_plus.
    change (inject_Z 1) with 1%Q.
    revert Hone Htop Hlo Hhi IH1 IH2.
    generalize (inject_Z (cut_duration - 1)), (inject_Z (cut_duration + 2)).
    intros k1 k2 Hone Htop Hlo Hhi IH1 IH2.
    split; [nra|]. intros _.
    destruct rest as [|y rest].
    + change (inject_Z (Z.of_nat (length (@nil clip)))) with 0%Q. lra.
    + specialize (IH2 ltac:(done)). nra.
  - change (inject_Z (Z.of_nat (length [x]))) with 1%Q.
    split; [lra|]. intros _. lra.
Qed.



(** * A montage whose [video_paths] is no list of paths *)

Section MalformedPaths.
Context (E : externals).

(** The loop over the assets raises on the first element that is no
    string. *)
Lemma assets_of_other_objects (xs : list (nat * pyobj)) acc w :
  Exists (λ iv, ∀ s, iv.2 ≠ PStr s) xs →
  ∃ msg,
    for_each
      (λ (assets_str : string) (iv : nat * pyobj),
         abs_v ← call (abspath_of E iv.2);
         mret (assets_str +:+ "        <asset " +:+
               attr "id" ("cam" +:+ pretty iv.1) +:+ " " +:+
               attr "name" ("Camera_" +:+ pretty (iv.1 + 1)%nat) +:+ " " +:+
               attr "src" ("file://" +:+ abs_v) +:+ " />" +:+ nl))
      xs acc w = (Raises (TypeError msg), w).
Proof.
  intros Hex. revert acc.
  induction xs as [|[i v] xs IH]; intros acc; [by apply Exists_nil in Hex|].
  simpl. destruct v as [| | | |s| |];
    try (eexists; by erewrite bind_Raises by reflexivity).
  apply Exists_cons in Hex as [Hbad|Hex]; [by destruct (Hbad s)|].
  erewrite bind_Returns by reflexivity. by apply IH.
Qed.

Lemma enumerate_other_objects (l : list pyobj) :
  Exists (λ x, ∀ s, x ≠ PStr s) l →
  Exists (λ iv : nat * pyobj, ∀ s, iv.2 ≠ PStr s) (imap (λ i v, (i, v)) l).
Proof.
  rewrite !Exists_exists. intros (x & Hin & Hx).
  apply list_elem_of_lookup in Hin. destruct Hin as [i Hi].
  exists (i, x). split; [|done].
  apply list_elem_of_lookup. exists i.
  by rewrite list_lookup_imap, Hi.
Qed.

(** On such a value [generate_premiere_xml] raises [TypeError] before it
    draws anything. *)
Lemma generate_premiere_xml_type_error audio_path v style d w :
  not_a_path_list v →
  ∃ msg, generate_premiere_xml E audio_path v style d w =
           (Raises (TypeError msg), w).
Proof.
  intros Hv. unfold generate_premiere_xml, generate_premiere_xml_parts.
  cbv zeta. destruct v as [| | | | |l|]; try done;
    try (eexists; erewrite bind_Raises; [reflexivity|];
         by erewrite bind_Raises by reflexivity).
  simpl in Hv. apply enumerate_other_objects in Hv.
  destruct (assets_of_other_objects _ "" w Hv) as [msg Hmsg].
  exists msg. erewrite bind_Raises; [reflexivity|].
  erewrite bind_Returns by reflexivity.
  by erewrite bind_Raises by apply Hmsg.
Qed.

End MalformedPaths.

(** X10: a montage submission whose [video_paths] is valid JSON but no
    list of paths (a number, a boolean, [null], or a list with an element
    that is no string) is not rejected at submission: the endpoint creates
    the pending job and registers the task.  The task, whenever it runs,
    returns with a terminal record of status [failed] whose error is the
    text of a [TypeError]; none of its writes has status [completed] and
    the generator of [random] is not touched. *)
Theorem montage_with_malformed_paths_fails (E : externals)
    (audio_path video_paths lyrics style : string) (v : pyobj) (w : world) :
  json_loads E video_paths = inr v →
  not_a_path_list v →
  ∃ job_id w1,
    start_montage E [] audio_path video_paths lyrics style w =
      (Returns ([("job_id", PStr job_id)],
                [MontageTask job_id audio_path v lyrics style]), w1) ∧
    tasks_storage w1 !! job_id ≫= dict_get "status" = Some (PStr "pending") ∧
    ∀ w1', ∃ w2 msg updated_at ws,
      run_task E (MontageTask job_id audio_path v lyrics style) w1' =
        (Returns tt, w2) ∧
      tasks_storage w2 !! job_id =
        Some [("status", PStr "failed");
              ("result", PDict [("error", PStr (str_exn (TypeError msg)))]);
              ("progress", PInt 0);
              ("updated_at", PStr updated_at)] ∧
      wrote w1' w2 ws ∧
      Forall (λ x, status_of x ≠ Some "completed") ws ∧
      random_calls w2 = random_calls w1'.
Proof.
  intros Hjson Hv. eexists _, _. split; [|split].
  { unfold start_montage. rewrite Hjson.
    erewrite bind_Returns by reflexivity.
    erewrite bind_Returns by reflexivity.
    erewrite bind_Returns by apply update_task_status_eq. reflexivity. }
  { simpl. by rewrite lookup_insert_eq. }
  intros w1'. simpl run_task.
  unfold run_montage_task, try_except, run_montage_task_try.
  erewrite bind_Returns by apply update_task_status_eq.
  erewrite bind_Returns by apply get_audio_duration_cases.
  erewrite bind_Returns by apply update_task_status_eq.
  erewrite bind_Returns by reflexivity.
  erewrite bind_Returns by apply update_task_status_eq.
  match goal with
  | |- context [mbind _ (generate_premiere_xml E ?a ?v ?s ?d) ?w3] =>
      destruct (generate_premiere_xml_type_error E a v s d w3 Hv) as [msg Hxml]
  end.
  erewrite bind_Raises by apply Hxml. simpl is_Exception. cbv iota.
  rewrite update_task_status_eq.
  eexists _, msg, _, [_; _; _; _]. split; [reflexivity|]. simpl.
  split; [apply lookup_insert_eq|]. split; [by split|].
  split; [|done]. repeat constructor; discriminate.
Qed.

Lemma montage_with_malformed_paths_fails_witness :
  ∃ w2 msg updated_at,
    run_task studio_host (MontageTask "uuid0" "audio.mp3" PNone "" "internal")
      initial_world = (Returns tt, w2) ∧
    tasks_storage w2 !! "uuid0" =
      Some [("status", PStr "failed");
            ("result", PDict [("error", PStr (str_exn (TypeError msg)))]);
            ("progress", PInt 0);
            ("updated_at", PStr updated_at)].
Proof.
  destruct (montage_with_malformed_paths_fails studio_host "audio.mp3" "null" ""
              "internal" PNone initial_world)
    as (job_id & w1 & Hstart & _ & Hrun).
  - reflexivity.
  - exact I.
  - injection Hstart as <- _.
    destruct (Hrun initial_world) as (w2 & msg & u & ws & H1 & H2 & _).
    exists w2, msg, u. split; [exact H1 | exact H2].
Defined.

(** * Isolation and retention *)

Lemma replay_other ws ts task_id :
  Forall (λ x : string * dict, x.1 ≠ task_id) ws →
  replay ws ts !! task_id = ts !! task_id.
Proof.
  intros Hws. revert ts.
  induction Hws as [|[k v] ws Hk _ IH]; intros ts; simpl; [done|].
  rewrite IH. by apply lookup_insert_ne.
Qed.

Lemma replay_retains ws ts task_id :
  is_Some (ts !! task_id) → is_Some (replay ws ts !! task_id).
Proof.
  revert ts. induction ws as [|[k v] ws IH]; intros ts Hs; simpl; [done|].
  apply IH. simpl. destruct (decide (k = task_id)) as [->|Hne].
  - rewrite lookup_insert_eq. by eexists.
  - by rewrite lookup_insert_ne.
Qed.

(** The writes of an action all go to the record it may touch. *)
Lemma perform_writes E a w :
  ∃ ws, wrote w (perform E a w).2 ws ∧
        Forall (λ x, touched E a w = Some x.1) ws.
Proof.
  destruct a as [s bts|t|job_id]; unfold perform, touched.
  - rewrite then_unit_world.
    destruct (submit_cases E s bts w) as [(t & Ht & Hok)|[e He]].
    + rewrite Hok, update_task_status_eq. eexists [_]. split; [by split|].
      by repeat constructor.
    + rewrite He. exists []. split; [by apply wrote_nil|done].
  - destruct (run_task_statuses E t w) as (ws & ending & Hw & Hid & _).
    exists ws. split; [done|].
    eapply Forall_impl; [apply Hid|]. by intros x ->.
  - rewrite then_unit_world. exists []. split; [by apply wrote_nil|done].
Qed.

(** X11: isolation.  An action changes at most one record of the
    registry: a submission the record of the id it draws, an execution of a
    task function the record of its own job, a status query none.  The
    record of every other job is exactly what it was. *)
Theorem actions_touch_one_record (E : externals) (a : action) (w : world)
    (job_id : string) :
  touched E a w ≠ Some job_id →
  tasks_storage (perform E a w).2 !! job_id = tasks_storage w !! job_id.
Proof.
  intros Hother. destruct (perform_writes E a w) as (ws & [_ ->] & Hws).
  apply replay_other. eapply Forall_impl; [apply Hws|].
  intros x Hx Heq. apply Hother. by rewrite Hx, Heq.
Qed.

Lemma actions_touch_one_record_witness :
  tasks_storage
    (perform sample_host (Run (MixTask "job1" "vocal.mp3" "slap.mp3"))
       (perform sample_host (Submit (PostImageGenerate "a lamp") [])
          initial_world).2).2 !! "uuid0" =
  tasks_storage
    (perform sample_host (Submit (PostImageGenerate "a lamp") [])
       initial_world).2 !! "uuid0".
Proof.
  apply (actions_touch_one_record sample_host
           (Run (MixTask "job1" "vocal.mp3" "slap.mp3"))).
  discriminate.
Defined.

(** X12: retention.  No sequence of submissions, task executions and
    status queries ever removes a record: a job id that is in the registry
    stays in it. *)
Theorem registry_never_forgets (E : externals) (actions : list action)
    (w : world) (job_id : string) :
  is_Some (tasks_storage w !! job_id) →
  is_Some (tasks_storage (perform_all E actions w) !! job_id).
Proof.
  revert w. induction actions as [|a actions IH]; intros w Hin; [done|].
  simpl. apply IH.
  destruct (perform_writes E a w) as (ws & [_ ->] & _).
  by apply replay_retains.
Qed.

Lemma registry_never_forgets_witness :
  is_Some
    (tasks_storage
       (perform_all sample_host
          [Run (MixTask "uuid0" "vocal.mp3" "slap.mp3"); Query "uuid0";
           Submit (PostSrtSync "audio.mp3" "la la") []]
          (perform sample_host (Submit (PostMix "vocal.mp3" "slap.mp3") [])
             initial_world).2) !! "uuid0").
Proof.
  apply (registry_never_forgets sample_host).
  vm_compute. eexists. reflexivity.
Defined.


(** * The files the tasks write *)

Lemma string_app_cons a (s1 s2 : string) :
  String a s1 +:+ s2 = String a (s1 +:+ s2).
Proof. reflexivity. Qed.

Lemma string_length_app (s1 s2 : string) :
  String.length (s1 +:+ s2) = String.length s1 + String.length s2.
Proof.
  induction s1 as [|a s1 IH]; [done|].
  rewrite string_app_cons. simpl. by rewrite IH.
Qed.

Lemma string_app_inv_tail (s1 s2 x : string) :
  s1 +:+ x = s2 +:+ x → s1 = s2.
Proof.
  revert s2. induction s1 as [|a s1 IH]; intros [|b s2] Heq.
  - done.
  - apply (f_equal String.length) in Heq.
    rewrite !string_length_app in Heq. simpl in Heq. lia.
  - apply (f_equal String.length) in Heq.
    rewrite !string_length_app in Heq. simpl in Heq. lia.
  - rewrite !string_app_cons in Heq. injection Heq as -> Heq.
    f_equal. by apply IH.
Qed.

Lemma writes_only_weaken {A} (m : M A) paths paths' :
  paths ⊆ paths' → writes_only paths m → writes_only paths' m.
Proof. intros Hsub Hm w p Hp. apply Hm. intros Hin. by apply Hp, Hsub. Qed.

Lemma writes_only_stateless {A} (m : M A) paths :
  (∀ w, files (m w).2 = files w) → writes_only paths m.
Proof. intros Hm w p _. by rewrite Hm. Qed.

Lemma writes_only_bind {A B} (m : M A) (f : A → M B) paths :
  writes_only paths m → (∀ a, writes_only paths (f a)) →
  writes_only paths (m ≫= f).
Proof.
  intros Hm Hf w p Hp. specialize (Hm w p Hp). unfold mbind, M_bind.
  destruct (m w) as [[a|e|] w1]; simpl in Hm; [|done..].
  by rewrite (Hf a w1 p Hp).
Qed.

Lemma writes_only_try_except {A} (body : M A) handler paths :
  writes_only paths body → (∀ e, writes_only paths (handler e)) →
  writes_only paths (try_except body handler).
Proof.
  intros Hb Hh w p Hp. specialize (Hb w p Hp). unfold try_except.
  destruct (body w) as [[a|e|] w1]; simpl in Hb; [done| |done].
  destruct (is_Exception e); [|done]. by rewrite (Hh e w1 p Hp).
Qed.

Lemma writes_only_try_except_all {A} (body handler : M A) paths :
  writes_only paths body → writes_only paths handler →
  writes_only paths (try_except_all body handler).
Proof.
  intros Hb Hh w p Hp. specialize (Hb w p Hp). unfold try_except_all.
  destruct (body w) as [[a|e|] w1]; simpl in Hb; [done| |done].
  by rewrite (Hh w1 p Hp).
Qed.

Lemma writes_only_ret {A} (a : A) paths : writes_only paths (mret a).
Proof. by intros w p _. Qed.

Lemma writes_only_raise {A} e paths : writes_only paths (@raise A e).
Proof. by intros w p _. Qed.

Lemma writes_only_out_of_fuel {A} paths : writes_only paths (@out_of_fuel A).
Proof. by intros w p _. Qed.

Lemma writes_only_call {A} (r : exn + A) paths : writes_only paths (call r).
Proof. by destruct r. Qed.

Lemma writes_only_for_each {A B} (step : B → A → M B) xs acc paths :
  (∀ acc x, writes_only paths (step acc x)) →
  writes_only paths (for_each step xs acc).
Proof.
  intros Hs. revert acc. induction xs as [|x xs IH]; intros acc; simpl.
  - apply writes_only_ret.
  - apply writes_only_bind; [apply Hs | apply IH].
Qed.

Create HintDb files discriminated.

Ltac files_frame :=
  repeat first
    [ progress intros
    | solve [auto with files]
    | apply writes_only_ret | apply writes_only_raise
    | apply writes_only_out_of_fuel | apply writes_only_call
    | apply writes_only_bind | apply writes_only_try_except
    | apply writes_only_try_except_all | apply writes_only_for_each
    | match goal with
      | |- writes_only _ (if ?b then _ else _) => destruct b
      | |- writes_only _ (match ?x with _ => _ end) => destruct x
      | |- writes_only _ (let _ := _ in _) => cbv zeta
      end ].

Section Files.
Context (E : externals).

Lemma files_uuid4_hex paths : writes_only paths (uuid4_hex E).
Proof. by intros w p _. Qed.

Lemma files_random_draw paths : writes_only paths (random_draw E).
Proof. by intros w p _. Qed.

Lemma files_update_task_status task_id status result progress paths :
  writes_only paths (update_task_status E task_id status result progress).
Proof. apply writes_only_stateless. intros w. by rewrite update_task_status_eq. Qed.

Lemma files_write_file path content paths :
  path ∈ paths → writes_only paths (write_file E path content).
Proof.
  intros Hin w p Hp. unfold write_file.
  destruct (write_text E path content); [done|]. simpl.
  apply lookup_insert_ne. by intros ->.
Qed.

Hint Resolve files_uuid4_hex files_random_draw files_update_task_status
  files_write_file : files.

Lemma files_ensure_ffmpeg paths : writes_only paths (ensure_ffmpeg E).
Proof. unfold ensure_ffmpeg. files_frame. Qed.

Hint Resolve files_ensure_ffmpeg : files.

Lemma files_mix_audio_aza vocal_path slap_path output_path paths :
  writes_only paths (mix_audio_aza E vocal_path slap_path output_path).
Proof. unfold mix_audio_aza. files_frame. Qed.

Lemma files_get_audio_duration path paths :
  writes_only paths (get_audio_duration E path).
Proof. unfold get_audio_duration. files_frame. Qed.

Lemma files_generate_srt_via_ai audio_path lyrics paths :
  writes_only paths (generate_srt_via_ai E audio_path lyrics).
Proof. unfold generate_srt_via_ai. files_frame. Qed.

Lemma files_random_randint a b paths : writes_only paths (random_randint E a b).
Proof. unfold random_randint. files_frame. Qed.

Lemma files_random_uniform a b paths : writes_only paths (random_uniform E a b).
Proof. unfold random_uniform, random_random. files_frame. Qed.

Hint Resolve files_random_randint files_random_uniform : files.

Lemma files_montage_loop fuel cut_duration cam_count total_duration
    current_time clips paths :
  writes_only paths
    (montage_loop E fuel cut_duration cam_count total_duration current_time
       clips).
Proof.
  revert current_time clips.
  induction fuel as [|fuel IH]; intros current_time clips; simpl; files_frame.
Qed.

Hint Resolve files_montage_loop : files.

Lemma files_generate_premiere_xml audio_path video_paths style d paths :
  writes_only paths (generate_premiere_xml E audio_path video_paths style d).
Proof.
  unfold generate_premiere_xml, generate_premiere_xml_parts. files_frame.
Qed.

Hint Resolve files_mix_audio_aza files_get_audio_duration
  files_generate_srt_via_ai files_generate_premiere_xml : files.

(** A task function writes no file but its own. *)
Lemma files_run_task t :
  writes_only (option_list (written_file E t)) (run_task E t).
Proof.
  destruct t; simpl;
    unfold run_mix_task, run_mix_task_try, run_srt_sync_task,
      run_srt_sync_task_try, run_montage_task, run_montage_task_try,
      run_image_gen_task, run_image_gen_task_try, time_sleep;
    fold (srt_output_path E job_id); fold (montage_xml_path E job_id);
    files_frame;
    apply files_write_file; by left.
Qed.

(** The name of the file tells the job. *)
Lemma written_file_inj t1 t2 p :
  written_file E t1 = Some p → written_file E t2 = Some p →
  task_id_of t1 = task_id_of t2.
Proof.
  unfold written_file, srt_output_path, montage_xml_path, path_join.
  destruct t1, t2; intros [= <-] [= Heq]; simpl;
    apply (inj (String.app _)) in Heq;
    apply (inj (String.app _)) in Heq;
    try discriminate Heq.
  - apply (inj (String.app "sync_")) in Heq.
    symmetry. by eapply string_app_inv_tail.
  - apply (inj (String.app "montage_")) in Heq.
    symmetry. by eapply string_app_inv_tail.
Qed.

End Files.


(** * The server as a whole *)

(** ** Markers: every write is marked by a [uuid4] call of its own *)

Lemma marked_nil E lo hi : lo ≤ hi → marked E lo hi [].
Proof. intros Hle. split; [done|]. exists []. by repeat constructor. Qed.

Lemma marked_app E lo mid hi ws1 ws2 :
  marked E lo mid ws1 → marked E mid hi ws2 → marked E lo hi (ws1 ++ ws2).
Proof.
  intros (Hle1 & ks1 & Hs1 & Hr1 & Hm1) (Hle2 & ks2 & Hs2 & Hr2 & Hm2).
  split; [lia|]. exists (ks1 ++ ks2). split; [|split].
  - clear Hm1 Hm2. induction Hs1 as [|k ks1 Hs1 IH Hk]; simpl; [done|].
    apply Forall_cons in Hr1 as [Hk1 Hr1]. constructor; [by apply IH|].
    apply Forall_app. split; [done|].
    eapply Forall_impl; [apply Hr2|]. simpl. intros. lia.
  - apply Forall_app. split.
    + eapply Forall_impl; [apply Hr1|]. simpl. intros. lia.
    + eapply Forall_impl; [apply Hr2|]. simpl. intros. lia.
  - by apply Forall2_app.
Qed.
